(** * Gradient solvers of fatiando.inv.gsolvers: [linsolver] and [marq]

    A shallow embedding of [src/fatiando/inv/gsolvers.py] (Python 2) and the
    properties of its two solvers.

    Modelling conventions.
    - numpy floats are exact rationals ([Q]); equality of computed numbers
      is [Qeq] ([==]).  [numpy.linalg.norm(r)**2] is the sum of the squares
      of [r].
    - The Python scalars [lmstart] and [lmstep] are Python 2 numbers, an
      [int] or a [float] ([pynum]): the defaults [100] and [10] are ints,
      and [/] on two ints is floor division.
    - A 1-D array is a [list Q]; a 2-D array is the list of its rows (an
      array with no row does not record its number of columns).
    - Exceptions are values of [exn]; a computation returns the trace of
      its events together with an exception or a value.
    - The callbacks [func], [jac], [reg_norm], [reg_grad] and [reg_hess]
      are pure functions, so the array that [gradient *= -1] negates in
      place is a fresh one at every outer iteration.
    - [xrange(n)] is empty for [n <= 0]: the loops run [Z.to_nat n]
      times. *)

From Stdlib Require Import List ZArith QArith Qabs Bool Lia Lqa.
Import ListNotations.

Local Open Scope Q_scope.

(** ** Python scalars *)

Inductive pynum : Type :=
| PyInt (z : Z)
| PyFloat (q : Q).

Inductive exn : Type :=
| ValueError          (* numpy: operands could not be broadcast / aligned *)
| LinAlgError         (* numpy.linalg: singular or non-square matrix *)
| ZeroDivisionError.  (* Python: division of a scalar by zero *)

Inductive event : Type :=
| Damping (lm_param : pynum)  (* lm_param is assigned this value *)
| Accept (goal : Q)           (* goals.append(goal) *)
| Warning                     (* log.warning("WARNING: convergence tolerance not achieved") *)
| DivideByZero.               (* a float quotient is evaluated with divisor 0 *)

Definition toQ (x : pynum) : Q :=
  match x with
  | PyInt z => inject_Z z
  | PyFloat q => q
  end.

Definition Qlt_bool (x y : Q) : bool := negb (Qle_bool y x).

(** [a / b] on Python 2 scalars: floor division on two ints, true division
    as soon as one operand is a float; a zero divisor raises. *)
Definition pydiv (a b : pynum) : exn + pynum :=
  match a, b with
  | PyInt x, PyInt y =>
      if (y =? 0)%Z then inl ZeroDivisionError else inr (PyInt (x / y)%Z)
  | _, _ =>
      if Qeq_bool (toQ b) 0 then inl ZeroDivisionError
      else inr (PyFloat (toQ a / toQ b))
  end.

Definition pymul (a b : pynum) : pynum :=
  match a, b with
  | PyInt x, PyInt y => PyInt (x * y)%Z
  | _, _ => PyFloat (toQ a * toQ b)
  end.

(** ** numpy arrays *)

Definition vector : Type := list Q.
Definition matrix : Type := list (list Q).

Module Numpy.

(** Elementwise binary operation on two 1-D arrays, with numpy's
    broadcasting: equal lengths, or one operand of length 1. *)
Definition broadcast (f : Q -> Q -> Q) (a b : vector) : exn + vector :=
  if (length a =? length b)%nat then inr (map (fun p => f (fst p) (snd p)) (combine a b))
  else match a, b with
       | [x], _ => inr (map (f x) b)
       | _, [y] => inr (map (fun x => f x y) a)
       | _, _ => inl ValueError
       end.

Definition add := broadcast Qplus.
Definition sub := broadcast Qminus.

(** [c * v] for a scalar [c]. *)
Definition scale (c : Q) (v : vector) : vector := map (Qmult c) v.

Definition total (v : vector) : Q := fold_right Qplus 0 v.

(** Inner product of two 1-D arrays of one length. *)
Definition inner (a b : vector) : Q :=
  total (map (fun p => fst p * snd p) (combine a b)).

(** [numpy.linalg.norm(v)**2] *)
Definition norm2 (v : vector) : Q := total (map (fun x => x * x) v).

Definition column (j : nat) (A : matrix) : vector :=
  map (fun row => nth j row 0) A.

Definition ncols (A : matrix) : nat :=
  match A with
  | [] => O
  | row :: _ => length row
  end.

(** [A.T] *)
Definition transpose (A : matrix) : matrix :=
  map (fun j => column j A) (seq 0 (ncols A)).

(** [dot(A, B)] for two 2-D arrays whose shapes agree, as those of
    [A.T] and [A] do. *)
Definition dot_mm (A B : matrix) : matrix :=
  map (fun row => map (fun j => inner row (column j B)) (seq 0 (ncols B))) A.

(** [dot(A, v)] for a 2-D and a 1-D array: every row of [A] must be as
    long as [v]. *)
Definition dot_mv (A : matrix) (v : vector) : exn + vector :=
  if forallb (fun row => (length row =? length v)%nat) A
  then inr (map (fun row => inner row v) A)
  else inl ValueError.

(** [A.diagonal()]: a 1-D array. *)
Definition diagonal (A : matrix) : vector :=
  map (fun i => nth i (nth i A []) 0) (seq 0 (Nat.min (length A) (ncols A))).

(** [A + v] for a 2-D and a 1-D array: [v] is broadcast along the rows,
    it is added to every row of [A]. *)
Fixpoint add_rows (A : matrix) (v : vector) : exn + matrix :=
  match A with
  | [] => inr []
  | row :: rest =>
      match add row v with
      | inl e => inl e
      | inr row' =>
          match add_rows rest v with
          | inl e => inl e
          | inr rest' => inr (row' :: rest')
          end
      end
  end.

(** *** numpy.linalg.solve

    The exact solution of a square system, by Cramer's rule; the
    determinant is expanded along the first row. *)

Fixpoint remove_nth (j : nat) (l : vector) : vector :=
  match j, l with
  | _, [] => []
  | O, _ :: t => t
  | S j', x :: t => x :: remove_nth j' t
  end.

Fixpoint replace_nth (j : nat) (y : Q) (l : vector) : vector :=
  match j, l with
  | _, [] => []
  | O, _ :: t => y :: t
  | S j', x :: t => x :: replace_nth j' y t
  end.

(** The terms [(-1)^j * a_j * minor j] of the expansion, from column [j]. *)
Fixpoint expansion (minor : nat -> Q) (j : nat) (row : vector) : Q :=
  match row with
  | [] => 0
  | a :: t => a * minor j - expansion minor (S j) t
  end.

Fixpoint det (n : nat) (A : matrix) : Q :=
  match n, A with
  | O, _ => 1
  | S _, [] => 0
  | S n', row :: rest =>
      expansion (fun j => det n' (map (remove_nth j) rest)) 0 row
  end.

(** [A] with its column [j] replaced by [b]. *)
Definition replace_column (j : nat) (b : vector) (A : matrix) : matrix :=
  map (fun p => replace_nth j (snd p) (fst p)) (combine A b).

Definition is_square (A : matrix) : bool :=
  forallb (fun row => (length row =? length A)%nat) A.

Definition solve (A : matrix) (b : vector) : exn + vector :=
  if negb (is_square A) then inl LinAlgError
  else if negb (length b =? length A)%nat then inl ValueError
  else
    let n := length A in
    let d := det n A in
    if Qeq_bool d 0 then inl LinAlgError
    else inr (map (fun j => det n (replace_column j b A) / d) (seq 0 n)).

End Numpy.

(** ** Computations: a trace of events and an exception or a value *)

Definition M (A : Type) : Type := (list event * (exn + A))%type.

Definition ret {A} (a : A) : M A := ([], inr a).
Definition raise {A} (e : exn) : M A := ([], inl e).
Definition tell (ev : event) : M unit := ([ev], inr tt).
Definition lift {A} (r : exn + A) : M A := ([], r).

Definition bind {A B} (m : M A) (f : A -> M B) : M B :=
  match m with
  | (l, inl e) => (l, inl e)
  | (l, inr a) => let (l', r) := f a in (l ++ l', r)
  end.

Notation "x <- m ;; k" := (bind m (fun x => k))
  (at level 61, m at next level, right associativity).
Notation "m ;;; k" := (bind m (fun _ => k))
  (at level 61, right associativity).

Definition trace {A} (m : M A) : list event := fst m.
Definition outcome {A} (m : M A) : exn + A := snd m.

(** ** The solvers *)

Definition norm_fn : Type := vector -> Q.
Definition grad_fn : Type := option vector -> vector -> vector.
Definition hess_fn : Type := option vector -> matrix -> matrix.

(** "Make lambdas that do nothing if no regularization is given" *)
Definition regularization (reg_norm : option norm_fn) (reg_grad : option grad_fn)
    (reg_hess : option hess_fn) : norm_fn * grad_fn * hess_fn :=
  match reg_norm, reg_grad, reg_hess with
  | Some n, Some g, Some h => (n, g, h)
  | _, _, _ => (fun x => 0, fun x g => g, fun x h => h)
  end.

(** The result dictionaries: [linsolver] returns the first two keys,
    [marq] all three. *)
Record linresult : Type := mkLin {
  lin_estimate : vector;
  lin_residuals : vector
}.

Record result : Type := mkResult {
  estimate : vector;
  residuals : vector;
  goal_p_it : list Q
}.

Definition linsolver (data : vector) (func : vector -> vector) (jac : matrix)
    (reg_norm : option norm_fn) (reg_grad : option grad_fn)
    (reg_hess : option hess_fn) : M linresult :=
  let '(reg_norm, reg_grad, reg_hess) := regularization reg_norm reg_grad reg_hess in
  let hessian := reg_hess None (Numpy.dot_mm (Numpy.transpose jac) jac) in
  rhs <- lift (Numpy.dot_mv (Numpy.transpose jac) data) ;;
  estimate <- lift (Numpy.solve hessian rhs) ;;
  residuals <- lift (Numpy.sub data (func estimate)) ;;
  ret (mkLin estimate residuals).

(** [hessian + lm_param*hessian_diag], the matrix of the system solved for
    the step; [hessian_diag = hessian.diagonal()] is a 1-D array. *)
Definition damped (hessian : matrix) (lm_param : pynum) : exn + matrix :=
  let hessian_diag := Numpy.diagonal hessian in
  Numpy.add_rows hessian (Numpy.scale (toQ lm_param) hessian_diag).

(** [goals[-1]] and [goals[-2]] *)
Definition last1 (goals : list Q) : Q := last goals 0.
Definition last2 (goals : list Q) : Q := last (removelast goals) 0.

(** [abs((goals[-1] - goals[-2])/goals[-2]) <= tol] on floats: a zero
    divisor gives an infinity or a nan, which no [tol] bounds. *)
Definition converged (goals : list Q) (tol : Q) : M bool :=
  if Qeq_bool (last2 goals) 0 then tell DivideByZero ;;; ret false
  else ret (Qle_bool (Qabs ((last1 goals - last2 goals) / last2 goals)) tol).

(** How the loop over [lm_iteration] ends: by [break] with
    [stagnation = False], or exhausted with [stagnation = True]. The
    local variables [next], [residuals], [goal] and [lm_param] have the
    values of the last attempt. *)
Inductive search : Type :=
| Found (next residuals : vector) (goal : Q) (lm_param : pynum)
| Stagnated (residuals : vector) (lm_param : pynum).

(** How the body of the loop over [iteration] ends: by [break], with the
    result that [marq] then returns, or at its end, with the values of
    [next], [residuals], [goals] and [lm_param] for the next iteration. *)
Inductive flow : Type :=
| Break (r : result)
| Continue (next residuals : vector) (goals : list Q) (lm_param : pynum).

Section Marquardt.

Variables (data : vector) (func : vector -> vector) (jac : vector -> matrix).
Variables (lmstep : pynum) (maxsteps : Z) (tol : Q).
Variables (reg_norm : norm_fn) (reg_grad : grad_fn) (reg_hess : hess_fn).

(** [if lm_param > 10**(-10): lm_param /= lmstep] *)
Definition shrink (lm_param : pynum) : M pynum :=
  if Qlt_bool (1 # 10000000000) (toQ lm_param) then
    lm' <- lift (pydiv lm_param lmstep) ;;
    tell (Damping lm') ;;;
    ret lm'
  else ret lm_param.

(** [if lm_param < 10**(10): lm_param *= lmstep] *)
Definition grow (lm_param : pynum) : M pynum :=
  if Qlt_bool (toQ lm_param) 10000000000 then
    let lm' := pymul lm_param lmstep in
    tell (Damping lm') ;;;
    ret lm'
  else ret lm_param.

Section Iteration.

Variables (prev : vector) (hessian : matrix) (gradient : vector).
Variable (goals : list Q).

(** [for lm_iteration in xrange(maxsteps)], with [n] attempts left. *)
Fixpoint marquardt_loop (n : nat) (residuals : vector) (lm_param : pynum)
    : M search :=
  match n with
  | O => ret (Stagnated residuals lm_param)
  | S n' =>
      system <- lift (damped hessian lm_param) ;;
      delta <- lift (Numpy.solve system gradient) ;;
      next <- lift (Numpy.add prev delta) ;;
      residuals <- lift (Numpy.sub data (func next)) ;;
      let rms := Numpy.norm2 residuals in
      let reg := reg_norm next in
      let goal := rms + reg in
      if Qlt_bool goal (last1 goals) then
        lm_param <- shrink lm_param ;;
        ret (Found next residuals goal lm_param)
      else
        lm_param <- grow lm_param ;;
        marquardt_loop n' residuals lm_param
  end.

End Iteration.

(** The body of the loop over [iteration], from the values of [next],
    [residuals], [goals] and [lm_param] when it is entered. *)
Definition iteration (next residuals : vector) (goals : list Q)
    (lm_param : pynum) : M flow :=
  let prev := next in
  let jacobian := jac prev in
  jtr <- lift (Numpy.dot_mv (Numpy.transpose jacobian) residuals) ;;
  let gradient := reg_grad (Some prev) (Numpy.scale (-1) jtr) in
  let hessian :=
    reg_hess (Some prev) (Numpy.dot_mm (Numpy.transpose jacobian) jacobian) in
  let gradient := Numpy.scale (-1) gradient in
  s <- marquardt_loop prev hessian gradient goals (Z.to_nat maxsteps)
         residuals lm_param ;;
  match s with
  | Stagnated residuals lm_param =>
      let next := prev in
      tell Warning ;;;
      ret (Break (mkResult next residuals goals))
  | Found next residuals goal lm_param =>
      let goals := goals ++ [goal] in
      tell (Accept goal) ;;;
      stop <- converged goals tol ;;
      if stop then ret (Break (mkResult next residuals goals))
      else ret (Continue next residuals goals lm_param)
  end.

(** [for iteration in xrange(maxit)], with [n] iterations left. *)
Fixpoint iterations (n : nat) (next residuals : vector) (goals : list Q)
    (lm_param : pynum) : M result :=
  match n with
  | O => ret (mkResult next residuals goals)
  | S n' =>
      f <- iteration next residuals goals lm_param ;;
      match f with
      | Break r => ret r
      | Continue next residuals goals lm_param =>
          iterations n' next residuals goals lm_param
      end
  end.

End Marquardt.

Definition marq (data init : vector) (func : vector -> vector)
    (jac : vector -> matrix) (lmstart lmstep : pynum) (maxsteps maxit : Z)
    (tol : Q) (reg_norm : option norm_fn) (reg_grad : option grad_fn)
    (reg_hess : option hess_fn) : M result :=
  let '(reg_norm, reg_grad, reg_hess) := regularization reg_norm reg_grad reg_hess in
  residuals <- lift (Numpy.sub data (func init)) ;;
  let rms := Numpy.norm2 residuals in
  let reg := reg_norm init in
  let goals := [rms + reg] in
  let lm_param := lmstart in
  tell (Damping lm_param) ;;;
  let next := init in
  iterations data func jac lmstep maxsteps tol reg_norm reg_grad reg_hess
    (Z.to_nat maxit) next residuals goals lm_param.

(** The default arguments of [marq]. *)
Definition lmstart_default : pynum := PyInt 100.
Definition lmstep_default : pynum := PyInt 10.
Definition maxsteps_default : Z := 20.
Definition maxit_default : Z := 100.
Definition tol_default : Q := 1 # 100000.

(** ** Vocabulary of the properties *)

(** The no-op callbacks. *)
Definition no_norm : norm_fn := fun x => 0.
Definition no_grad : grad_fn := fun x g => g.
Definition no_hess : hess_fn := fun x h => h.




(** A forward function [func(p) = A.p] for a constant matrix [A]. *)
Definition linear_model (A : matrix) : vector -> vector :=
  fun p => map (fun row => Numpy.inner row p) A.

(** The model of the scenario: [A = [[1],[2]]], [data = A.[3]]. *)
Definition A12 : matrix := [[1]; [2]].
Definition data36 : vector := [3; 6].

(** A 2-D array of [N] rows and [M] columns whose entries are all zero. *)
Definition zero_matrix (N M : nat) (A : matrix) : Prop :=
  length A = N /\ Forall (fun row => length row = M /\ Forall (fun x => x == 0) row) A.

(** The system matrix of the classic Levenberg-Marquardt step,
    [H + lm*diag(H)]: [lm] times the diagonal entry is added to the
    diagonal entries and the other entries are those of [H]. *)
Definition diagonal_loading (hessian : matrix) (lm : Q) : matrix :=
  map (fun i =>
         map (fun j =>
                let h := nth j (nth i hessian []) 0 in
                if (i =? j)%nat then h + lm * h else h)
             (seq 0 (Numpy.ncols hessian)))
      (seq 0 (length hessian)).

(** A model of two parameters with a constant Jacobian. *)
Definition jacobian2 : matrix := [[1; 1]; [0; 1]].

(** The forward function [p^3 - 2p + 2] of one parameter and its
    Jacobian [3p^2 - 2]. *)
Definition cubic : vector -> vector :=
  fun p => map (fun x => x * x * x - 2 * x + 2) p.
Definition cubic_jac : vector -> matrix :=
  fun p => map (fun x => [3 * x * x - 2]) p.



(** ** Vocabulary of the runs *)

(** The number of accepted outer iterations, and of stagnated ones, in a
    trace. *)
Definition accepted (l : list event) : nat :=
  length (filter (fun e => match e with Accept _ => true | _ => false end) l).

Definition warnings (l : list event) : nat :=
  length (filter (fun e => match e with Warning => true | _ => false end) l).

(** Every value taken by [lm_param] in a trace satisfies [P]. *)
Definition damping_in (P : pynum -> Prop) (l : list event) : Prop :=
  Forall (fun e => match e with Damping v => P v | _ => True end) l.

(** Every event of a trace is an assignment of [lm_param]. *)
Definition damping_only (l : list event) : Prop :=
  Forall (fun e => match e with Damping _ => True | _ => False end) l.

(** [goals[i+1] <= goals[i]] for every consecutive pair. *)
Definition nonincreasing (goals : list Q) : Prop :=
  forall i, (S i < length goals)%nat -> nth (S i) goals 0 <= nth i goals 0.

Fixpoint descending (goals : list Q) : Prop :=
  match goals with
  | [] => True
  | a :: rest =>
      match rest with
      | [] => True
      | b :: _ => b < a /\ descending rest
      end
  end.

(** The values that [lm_param] takes in a trace, in order. *)
Fixpoint dampings (l : list event) : list pynum :=
  match l with
  | [] => []
  | Damping v :: rest => v :: dampings rest
  | _ :: rest => dampings rest
  end.

(** The bounds [10**(-10)] and [10**(10)] of the source. *)
Definition lm_min : Q := 1 # 10000000000.
Definition lm_max : Q := 10000000000.

Definition within_bounds (lm_param : pynum) : Prop :=
  lm_min <= toQ lm_param <= lm_max.

(** The bounds widened by one step of the damping. *)
Definition within_step_of_bounds (lmstep : Q) (lm_param : pynum) : Prop :=
  lm_min / lmstep <= toQ lm_param <= lm_max * lmstep.



(** The norm that a run uses, after the defaulting of the callbacks. *)
Definition effective_norm (reg_norm : option norm_fn) (reg_grad : option grad_fn)
    (reg_hess : option hess_fn) : norm_fn :=
  fst (fst (regularization reg_norm reg_grad reg_hess)).

Definition is_float (x : pynum) : bool :=
  match x with
  | PyFloat _ => true
  | PyInt _ => false
  end.

(** The forward function [func(p) = p] of one parameter. *)
Definition identity_model : vector -> vector := fun p => p.
Definition identity_jac : vector -> matrix := fun p => [[1]].

(** What the claim on the damping asks of a value of [lm_param] once
    [lmstart] lies within the bounds and [lmstep >= 1]. *)
Definition damping_bound (lmstart lmstep lm_param : pynum) : Prop :=
  0 <= toQ lm_param <= lm_max * toQ lmstep
  /\ (is_float lmstart = true \/ is_float lmstep = true ->
      lm_min / toQ lmstep <= toQ lm_param).

(** A regularization whose norm takes negative values. *)
Definition negative_norm : norm_fn := fun x => -(2) * Numpy.norm2 x.
Definition push_grad : grad_fn := fun x g => map (fun _ => 1) g.

(** The invariant of [lm_param] behind [damping_bound]: while [lmstart]
    or [lmstep] is a float, [lm_param] is one from the first update on. *)
Definition damping_invariant (lmstart lmstep lm_param : pynum) : Prop :=
  0 <= toQ lm_param <= lm_max * toQ lmstep
  /\ (is_float lmstart = true \/ is_float lmstep = true ->
      lm_min / toQ lmstep <= toQ lm_param
      /\ (is_float lmstep = false -> is_float lm_param = true)).



(** ** Vocabulary of the outcomes *)

(** [g] is the goal function at the parameters [p]:
    [norm(data - func(p))**2 + reg_norm(p)]. *)
Definition goal_at (data : vector) (func : vector -> vector)
    (reg_norm : norm_fn) (p : vector) (g : Q) : Prop :=
  exists res, Numpy.sub data (func p) = inr res
              /\ g = Numpy.norm2 res + reg_norm p.

(** The last two goals pass the test of relative improvement. *)
Definition within_tol (goals : list Q) (tol : Q) : Prop :=
  ~ last2 goals == 0
  /\ Qabs ((last1 goals - last2 goals) / last2 goals) <= tol.

(** [goals[i+1] < goals[i]] for every consecutive pair. *)
Definition decreasing (goals : list Q) : Prop :=
  forall i, (S i < length goals)%nat -> nth (S i) goals 0 < nth i goals 0.

(** The Jacobian of a model of one parameter, from its column. *)
Definition column_matrix (col : vector) : matrix := map (fun a => [a]) col.











(** The Hessian that [linsolver] solves with: [reg_hess(None, dot(jac.T, jac))]
    after the defaulting of the callbacks. *)
Definition normal_matrix (jac : matrix) (reg_norm : option norm_fn)
    (reg_grad : option grad_fn) (reg_hess : option hess_fn) : matrix :=
  snd (regularization reg_norm reg_grad reg_hess) None
    (Numpy.dot_mm (Numpy.transpose jac) jac).

(** * Properties *)

(** ** Laws of the computations *)

Lemma bind_ret {A B} (a : A) (f : A -> M B) : bind (ret a) f = f a.
Proof. unfold bind, ret. destruct (f a). reflexivity. Qed.

Lemma bind_lift_inr {A B} (a : A) (f : A -> M B) : bind (lift (inr a)) f = f a.
Proof. apply bind_ret. Qed.

Lemma bind_lift_inl {A B} (e : exn) (f : A -> M B) :
  bind (lift (inl e)) f = ([], inl e).
Proof. reflexivity. Qed.

Lemma bind_tell {B} (ev : event) (f : unit -> M B) :
  bind (tell ev) f = (ev :: trace (f tt), outcome (f tt)).
Proof. unfold bind, tell, trace, outcome. destruct (f tt). reflexivity. Qed.

Lemma trace_bind {A B} (m : M A) (f : A -> M B) :
  trace (bind m f) =
  trace m ++ match outcome m with
             | inr a => trace (f a)
             | inl _ => []
             end.
Proof.
  destruct m as [l [e | a]]; unfold bind, trace, outcome; simpl.
  - now rewrite app_nil_r.
  - now destruct (f a).
Qed.

Lemma outcome_bind {A B} (m : M A) (f : A -> M B) :
  outcome (bind m f) =
  match outcome m with
  | inr a => outcome (f a)
  | inl e => inl e
  end.
Proof.
  destruct m as [l [e | a]]; unfold bind, outcome; simpl.
  - reflexivity.
  - now destruct (f a).
Qed.

(** ** The regularization callbacks *)


(** C5: with the three callbacks omitted, [linsolver] and [marq] return
    what they return with the explicit no-op callbacks: the norm that is
    always 0, the gradient contribution and the Hessian contribution that
    return their second argument unchanged. *)
Theorem omitted_regularization_is_noop :
  (forall data func jac,
      linsolver data func jac None None None =
      linsolver data func jac (Some no_norm) (Some no_grad) (Some no_hess))
  /\ (forall data init func jac lmstart lmstep maxsteps maxit tol,
      marq data init func jac lmstart lmstep maxsteps maxit tol None None None =
      marq data init func jac lmstart lmstep maxsteps maxit tol
        (Some no_norm) (Some no_grad) (Some no_hess)).
Proof. split; intros; reflexivity. Qed.



(** ** The one-shot solver *)

(** C9: for [A = [[1],[2]]], [data = [3,6]] and [func(p) = A.p],
    [linsolver] returns the estimate [[3]] and the residuals [[0,0]]. *)
Theorem linsolver_recovers_three :
  exists r,
    linsolver data36 (linear_model A12) A12 None None None = ([], inr r)
    /\ Forall2 Qeq (lin_estimate r) [3]
    /\ Forall2 Qeq (lin_residuals r) [0; 0].
Proof.
  eexists. split; [vm_compute; reflexivity | ].
  split; repeat constructor; reflexivity.
Qed.

Lemma inner_zero_l (a b : vector) :
  Forall (fun x => x == 0) a -> Numpy.inner a b == 0.
Proof.
  unfold Numpy.inner. intros Ha. revert b.
  induction Ha as [ | x a Hx _ IH]; intros [ | y b]; simpl; try reflexivity.
  rewrite Hx, IH. ring.
Qed.

Lemma expansion_zero (minor : nat -> Q) (row : vector) :
  Forall (fun x => x == 0) row -> forall j, Numpy.expansion minor j row == 0.
Proof.
  induction 1 as [ | a row Ha _ IH]; intros j; simpl; [reflexivity | ].
  rewrite Ha, IH. ring.
Qed.

Lemma column_zero (N M : nat) (A : matrix) (j : nat) :
  zero_matrix N M A ->
  length (Numpy.column j A) = N /\ Forall (fun x => x == 0) (Numpy.column j A).
Proof.
  intros [HN HA]. unfold Numpy.column. split; [now rewrite length_map | ].
  apply Forall_map. apply (Forall_impl _ (P := fun row => length row = M
    /\ Forall (fun x => x == 0) row)); [ | exact HA].
  intros row [_ Hrow].
  destruct (Nat.lt_ge_cases j (length row)) as [Hlt | Hge].
  - rewrite Forall_forall in Hrow. apply Hrow. now apply nth_In.
  - rewrite nth_overflow by exact Hge. reflexivity.
Qed.

Lemma ncols_zero (N M : nat) (A : matrix) :
  (0 < N)%nat -> zero_matrix N M A -> Numpy.ncols A = M.
Proof.
  intros HN [HlenA HA]. destruct A as [ | row rest]; simpl in *; [lia | ].
  inversion HA as [ | ? ? [Hlen _] _]. exact Hlen.
Qed.

(** C7: for a Jacobian of [N >= 1] rows and [M >= 1] columns of zeros and
    data of length [N], without regularization, [linsolver] ends with the
    [LinAlgError] of the linear solve: nothing is caught or retried, and
    no result is returned. *)
Theorem zero_jacobian_raises (data : vector) (func : vector -> vector)
    (jac : matrix) (N M : nat) :
  (0 < N)%nat -> (0 < M)%nat -> length data = N -> zero_matrix N M jac ->
  linsolver data func jac None None None = ([], inl LinAlgError).
Proof.
  intros HN HM Hdata Hjac.
  unfold linsolver. cbn [regularization].
  pose proof (ncols_zero N M jac HN Hjac) as Hcols.
  assert (Hmv : exists rhs, Numpy.dot_mv (Numpy.transpose jac) data = inr rhs
                            /\ length rhs = M).
  { unfold Numpy.dot_mv.
    assert (E : forallb (fun row => (length row =? length data)%nat)
                  (Numpy.transpose jac) = true).
    { apply forallb_forall. intros row Hin. unfold Numpy.transpose in Hin.
      apply in_map_iff in Hin. destruct Hin as [j [<- _]].
      destruct (column_zero N M jac j Hjac) as [Hlen _].
      apply Nat.eqb_eq. congruence. }
    rewrite E. eexists. split; [reflexivity | ].
    unfold Numpy.transpose. now rewrite !length_map, length_seq. }
  destruct Hmv as [rhs [-> Hrhs]]. rewrite bind_lift_inr.
  set (hessian := Numpy.dot_mm (Numpy.transpose jac) jac).
  assert (Hlen : length hessian = M).
  { unfold hessian, Numpy.dot_mm, Numpy.transpose.
    now rewrite !length_map, length_seq. }
  assert (Hrows : Forall (fun row => length row = M
                                     /\ Forall (fun x => x == 0) row) hessian).
  { unfold hessian, Numpy.dot_mm. apply Forall_map. apply Forall_forall.
    intros row Hin. unfold Numpy.transpose in Hin.
    apply in_map_iff in Hin. destruct Hin as [j [<- _]].
    split; [now rewrite length_map, length_seq | ].
    apply Forall_map. apply Forall_forall. intros k _.
    apply inner_zero_l. now apply (column_zero N M jac j). }
  assert (Hsolve : Numpy.solve hessian rhs = inl LinAlgError).
  { unfold Numpy.solve.
    assert (Hsq : Numpy.is_square hessian = true).
    { unfold Numpy.is_square. apply forallb_forall. intros row Hin.
      rewrite Forall_forall in Hrows. destruct (Hrows row Hin) as [Hr _].
      apply Nat.eqb_eq. congruence. }
    rewrite Hsq. cbn [negb].
    replace (length rhs =? length hessian)%nat with true
      by (symmetry; apply Nat.eqb_eq; congruence).
    cbn [negb].
    destruct hessian as [ | row rest]; [simpl in Hlen; lia | ].
    inversion Hrows as [ | ? ? [_ Hzero] _]; subst.
    cbn [length Numpy.det].
    rewrite (Qeq_eq_bool _ 0 (expansion_zero _ row Hzero 0%nat)).
    reflexivity. }
  unfold no_hess. fold hessian. rewrite Hsolve. reflexivity.
Qed.

Lemma zero_jacobian_raises_witness :
  (0 < 2)%nat /\ (0 < 1)%nat /\ length data36 = 2%nat
  /\ zero_matrix 2 1 [[0]; [0 # 5]]
  /\ linsolver data36 (linear_model A12) [[0]; [0 # 5]] None None None
     = ([], inl LinAlgError).
Proof.
  assert (Z : zero_matrix 2 1 [[0]; [0 # 5]]).
  { split; [reflexivity | ]. repeat constructor; reflexivity. }
  split; [lia | split; [lia | split; [reflexivity | split; [exact Z | ]]]].
  apply (zero_jacobian_raises data36 (linear_model A12) [[0]; [0 # 5]] 2 1);
    [lia | lia | reflexivity | exact Z].
Defined.

(** ** The damped system *)

Lemma nth_map_lt {A B} (f : A -> B) (l : list A) (d : B) (d' : A) (j : nat) :
  (j < length l)%nat -> nth j (map f l) d = f (nth j l d').
Proof.
  intros Hj. rewrite (nth_indep _ d (f d')) by now rewrite length_map.
  apply map_nth.
Qed.

Lemma add_rows_same_length (A : matrix) (v : vector) :
  Forall (fun row => length row = length v) A ->
  Numpy.add_rows A v =
  inr (map (fun row => map (fun p => fst p + snd p) (combine row v)) A).
Proof.
  induction 1 as [ | row rest Hrow _ IH]; simpl; [reflexivity | ].
  unfold Numpy.add, Numpy.broadcast.
  rewrite (proj2 (Nat.eqb_eq _ _) Hrow), IH. reflexivity.
Qed.

Lemma diagonal_square (hessian : matrix) (n : nat) :
  length hessian = n -> Forall (fun row => length row = n) hessian ->
  length (Numpy.diagonal hessian) = n.
Proof.
  intros Hlen Hrows. unfold Numpy.diagonal.
  rewrite length_map, length_seq, Hlen.
  destruct hessian as [ | row rest]; simpl in *; [lia | ].
  inversion Hrows; subst. lia.
Qed.

(** X2: what [marq] solves with: on a square Hessian, entry [(i, j)] of
    the system matrix is [H i j + lm_param * H j j], on and off the
    diagonal. *)
Lemma damped_entries (hessian : matrix) (lm_param : pynum) (n : nat) :
  length hessian = n -> Forall (fun row => length row = n) hessian ->
  exists system,
    damped hessian lm_param = inr system
    /\ forall i j, (i < n)%nat -> (j < n)%nat ->
         nth j (nth i system []) 0 =
         nth j (nth i hessian []) 0 + toQ lm_param * nth j (nth j hessian []) 0.
Proof.
  intros Hlen Hrows.
  pose proof (diagonal_square hessian n Hlen Hrows) as Hdiag.
  unfold damped. eexists. split.
  - apply add_rows_same_length.
    apply (Forall_impl _ (P := fun row => length row = n)); [ | exact Hrows].
    intros row Hrow. unfold Numpy.scale. rewrite length_map. congruence.
  - intros i j Hi Hj.
    rewrite (nth_map_lt _ _ _ [] i) by lia.
    assert (Hrow : length (nth i hessian []) = n).
    { rewrite Forall_forall in Hrows. apply Hrows. apply nth_In. lia. }
    rewrite (nth_map_lt _ _ _ (0, 0) j)
      by (rewrite length_combine; unfold Numpy.scale; rewrite length_map; lia).
    rewrite combine_nth by (unfold Numpy.scale; rewrite length_map; lia).
    cbn [fst snd]. unfold Numpy.scale.
    rewrite (nth_map_lt _ _ _ 0 j) by lia.
    unfold Numpy.diagonal at 1.
    assert (Hmin : Nat.min (length hessian) (Numpy.ncols hessian) = n).
    { unfold Numpy.diagonal in Hdiag.
      now rewrite length_map, length_seq in Hdiag. }
    rewrite (nth_map_lt _ _ _ O j) by (rewrite length_seq; lia).
    rewrite seq_nth by lia.
    reflexivity.
Qed.

(** C1, at two parameters: for the Jacobian [[[1,1],[0,1]]] and the
    default damping 100, [H = [[1,1],[1,2]]] and the matrix of the system
    that [marq] solves is [[[101,201],[101,202]]]: the damping term is
    added to whole columns. [H + 100*diag(H)] is [[[101,1],[1,202]]]. *)
Theorem damping_reaches_off_diagonal :
  let hessian := Numpy.dot_mm (Numpy.transpose jacobian2) jacobian2 in
  hessian = [[1; 1]; [1; 2]]
  /\ damped hessian lmstart_default = inr [[101; 201]; [101; 202]]
  /\ diagonal_loading hessian (toQ lmstart_default) = [[101; 1]; [1; 202]].
Proof. vm_compute. repeat split; reflexivity. Qed.

(** ** Runs of [marq] at concrete inputs *)

(** C2, on stagnation: with [data = [0]], [func(p) = p^3 - 2p + 2] and its
    Jacobian, [init = [1]], [lmstart = 0] and [maxsteps = 1], the only
    attempt, the step to [[0]], is rejected; [marq] returns the estimate
    [[1]] with the residuals [[-2]] of the rejected step, while
    [data - func([1])] is [[-1]]. *)
Theorem stagnation_keeps_rejected_residuals :
  let run := marq [0] [1] cubic cubic_jac (PyInt 0) lmstep_default
               1 maxit_default tol_default None None None in
  run = ([Damping (PyInt 0); Damping (PyInt 0); Warning],
         inr (mkResult [1] [-2] [1]))
  /\ Numpy.sub [0] (cubic [1]) = inr [-1]
  /\ ~ Forall2 Qeq [-2] [-1].
Proof.
  cbv zeta. split; [vm_compute; reflexivity | ].
  split; [vm_compute; reflexivity | ].
  intros H. inversion H as [ | ? ? ? ? Habs _]; subst. discriminate Habs.
Qed.

(** ** Invariants of the loops *)

Lemma bind_emit {A B} (ev : event) (a : A) (f : A -> M B) :
  bind ([ev], inr a) f = (ev :: trace (f a), outcome (f a)).
Proof. unfold bind, trace, outcome. destruct (f a). reflexivity. Qed.

Lemma bind_silent {A B} (a : A) (f : A -> M B) : bind ([], inr a) f = f a.
Proof. apply bind_ret. Qed.

Lemma Qlt_bool_iff (x y : Q) : Qlt_bool x y = true <-> x < y.
Proof.
  unfold Qlt_bool. rewrite negb_true_iff.
  split.
  - intros H. apply Qnot_le_lt. intros Hle.
    apply Qle_bool_iff in Hle. congruence.
  - intros H. destruct (Qle_bool y x) eqn:E; [ | reflexivity].
    apply Qle_bool_iff in E. exfalso. exact (Qlt_not_le _ _ H E).
Qed.

Lemma norm2_nonneg (v : vector) : 0 <= Numpy.norm2 v.
Proof.
  unfold Numpy.norm2. induction v as [ | x v IH]; simpl; [apply Qle_refl | ].
  assert (0 <= x * x) by nra. lra.
Qed.

Lemma last2_snoc (goals : list Q) (g : Q) : last2 (goals ++ [g]) = last1 goals.
Proof. unfold last2, last1. now rewrite removelast_last. Qed.

Lemma last1_snoc (goals : list Q) (g : Q) : last1 (goals ++ [g]) = g.
Proof. unfold last1. apply last_last. Qed.

Lemma descending_snoc (goals : list Q) (g : Q) :
  descending goals -> g < last1 goals -> descending (goals ++ [g]).
Proof.
  unfold last1. induction goals as [ | a rest IH]; intros Hd Hg; [exact I | ].
  destruct rest as [ | b rest'].
  - simpl in *. split; [exact Hg | exact I].
  - destruct Hd as [Hba Hd]. change ((a :: b :: rest') ++ [g])
      with (a :: (b :: rest') ++ [g]).
    cbn [descending app]. split; [exact Hba | ].
    apply IH; [exact Hd | exact Hg].
Qed.

Lemma descending_nonincreasing (goals : list Q) :
  descending goals -> nonincreasing goals.
Proof.
  unfold nonincreasing. induction goals as [ | a rest IH]; intros Hd i Hi.
  - simpl in Hi. lia.
  - destruct rest as [ | b rest']; [simpl in Hi; lia | ].
    destruct Hd as [Hba Hd]. destruct i as [ | i].
    + simpl. apply Qlt_le_weak. exact Hba.
    + change (nth (S (S i)) (a :: b :: rest') 0) with (nth (S i) (b :: rest') 0).
      change (nth (S i) (a :: b :: rest') 0) with (nth i (b :: rest') 0).
      apply IH; [exact Hd | simpl in *; lia].
Qed.

Lemma accepted_app (l l' : list event) :
  accepted (l ++ l') = (accepted l + accepted l')%nat.
Proof. unfold accepted. now rewrite filter_app, length_app. Qed.

Lemma warnings_app (l l' : list event) :
  warnings (l ++ l') = (warnings l + warnings l')%nat.
Proof. unfold warnings. now rewrite filter_app, length_app. Qed.

Lemma damping_only_counts (l : list event) :
  damping_only l ->
  accepted l = O /\ warnings l = O /\ ~ In DivideByZero l.
Proof.
  induction 1 as [ | e l He _ [IHa [IHw IHd]]].
  - repeat split; auto.
  - destruct e; try contradiction.
    unfold accepted, warnings in *. cbn [filter].
    repeat split; auto. intros [Habs | Habs]; [discriminate | auto].
Qed.

Lemma damping_only_in (P : pynum -> Prop) (l : list event) :
  Forall (fun e => exists v, e = Damping v /\ P v) l ->
  damping_only l /\ damping_in P l.
Proof.
  induction 1 as [ | e l [v [-> Hv]] _ [IH1 IH2]]; split; constructor; auto.
Qed.

Section Loops.

Variables (data : vector) (func : vector -> vector) (jac : vector -> matrix).
Variables (lmstep : pynum) (maxsteps : Z) (tol : Q).
Variables (reg_norm : norm_fn) (reg_grad : grad_fn) (reg_hess : hess_fn).

(** A property of [lm_param] kept by the two guarded updates. *)
Variable P : pynum -> Prop.
Hypothesis P_shrink : forall lm lm',
  P lm -> lm_min < toQ lm -> pydiv lm lmstep = inr lm' -> P lm'.
Hypothesis P_grow : forall lm,
  P lm -> toQ lm < lm_max -> P (pymul lm lmstep).

Lemma shrink_cases (lm : pynum) :
  P lm ->
  shrink lmstep lm = ([], inr lm)
  \/ (exists lm', shrink lmstep lm = ([Damping lm'], inr lm') /\ P lm')
  \/ (exists e, shrink lmstep lm = ([], inl e)).
Proof.
  intros HP. unfold shrink.
  destruct (Qlt_bool (1 # 10000000000) (toQ lm)) eqn:Hlt; [ | now left].
  apply Qlt_bool_iff in Hlt. right.
  destruct (pydiv lm lmstep) as [e | lm'] eqn:Hdiv.
  - right. exists e. reflexivity.
  - left. exists lm'. split; [ | exact (P_shrink lm lm' HP Hlt Hdiv)].
    rewrite bind_lift_inr, bind_tell. reflexivity.
Qed.

Lemma grow_cases (lm : pynum) :
  P lm ->
  grow lmstep lm = ([], inr lm)
  \/ (exists lm', grow lmstep lm = ([Damping lm'], inr lm') /\ P lm').
Proof.
  intros HP. unfold grow.
  destruct (Qlt_bool (toQ lm) 10000000000) eqn:Hlt; [ | now left].
  apply Qlt_bool_iff in Hlt. right.
  exists (pymul lm lmstep). split; [ | exact (P_grow lm HP Hlt)].
  rewrite bind_tell. reflexivity.
Qed.

(** The search for the step: its trace holds assignments of [lm_param]
    only; a step is found with a goal below the last one, with the
    residuals of that step. *)
Lemma marquardt_loop_spec (prev : vector) (hessian : matrix)
    (gradient : vector) (goals : list Q) (n : nat) :
  forall residuals lm, P lm ->
  let m := marquardt_loop data func lmstep reg_norm prev hessian gradient
             goals n residuals lm in
  Forall (fun e => exists v, e = Damping v /\ P v) (trace m)
  /\ match outcome m with
     | inl _ => True
     | inr (Found next' residuals' goal lm') =>
         P lm' /\ Numpy.sub data (func next') = inr residuals'
         /\ goal = Numpy.norm2 residuals' + reg_norm next'
         /\ goal < last1 goals
     | inr (Stagnated residuals' lm') =>
         P lm' /\ (n = O -> residuals' = residuals)
     end.
Proof.
  induction n as [ | n' IH]; intros residuals lm HP; cbv zeta.
  - cbn. split; [constructor | split; auto].
  - cbn [marquardt_loop].
    destruct (damped hessian lm) as [e | system];
      [rewrite bind_lift_inl; cbn; split; [constructor | exact I] | ].
    rewrite bind_lift_inr.
    destruct (Numpy.solve system gradient) as [e | delta];
      [rewrite bind_lift_inl; cbn; split; [constructor | exact I] | ].
    rewrite bind_lift_inr.
    destruct (Numpy.add prev delta) as [e | next'];
      [rewrite bind_lift_inl; cbn; split; [constructor | exact I] | ].
    rewrite bind_lift_inr.
    destruct (Numpy.sub data (func next')) as [e | residuals'] eqn:Hsub;
      [rewrite bind_lift_inl; cbn; split; [constructor | exact I] | ].
    rewrite bind_lift_inr.
    destruct (Qlt_bool (Numpy.norm2 residuals' + reg_norm next') (last1 goals))
      eqn:Hlt.
    + apply Qlt_bool_iff in Hlt.
      destruct (shrink_cases lm HP) as [E | [[lm' [E HP']] | [e E]]]; rewrite E.
      * rewrite bind_silent. cbn. split; [constructor | auto].
      * rewrite bind_emit. cbn. split; [ | auto].
        constructor; [exists lm'; auto | constructor].
      * cbn. split; [constructor | exact I].
    + destruct (grow_cases lm HP) as [E | [lm' [E HP']]]; rewrite E.
      * rewrite bind_silent.
        destruct (IH residuals' lm HP) as [IHt IHo]. split; [exact IHt | ].
        destruct (outcome _) as [e | [? ? ? ? | ? ?]]; auto.
        destruct IHo as [? _]. split; [assumption | discriminate].
      * rewrite bind_emit.
        destruct (IH residuals' lm' HP') as [IHt IHo]. split.
        -- cbn [trace fst]. constructor; [exists lm'; auto | exact IHt].
        -- cbn [outcome snd].
           change (snd ?x) with (outcome x) in *.
           destruct (outcome _) as [e | [? ? ? ? | ? ?]]; auto.
           destruct IHo as [? _]. split; [assumption | discriminate].
Qed.

Lemma damping_in_app (l l' : list event) :
  damping_in P l -> damping_in P l' -> damping_in P (l ++ l').
Proof. intros H H'. apply Forall_app. now split. Qed.

(** One outer iteration: it stagnates, or it accepts a step whose goal
    is below the last one. *)
Lemma iteration_spec (nxt res : vector) (goals : list Q) (lm : pynum) :
  P lm ->
  let m := iteration data func jac lmstep maxsteps tol reg_norm reg_grad
             reg_hess nxt res goals lm in
  damping_in P (trace m)
  /\ ((forall x, 0 <= reg_norm x) -> ~ In DivideByZero (trace m))
  /\ match outcome m with
     | inl _ => True
     | inr (Break r) =>
         (estimate r = nxt /\ goal_p_it r = goals
          /\ accepted (trace m) = 0%nat /\ warnings (trace m) = 1%nat)
         \/ (exists g, goal_p_it r = goals ++ [g] /\ g < last1 goals
             /\ accepted (trace m) = 1%nat /\ warnings (trace m) = 0%nat
             /\ Numpy.sub data (func (estimate r)) = inr (residuals r))
     | inr (Continue next' residuals' goals' lm') =>
         P lm'
         /\ exists g, goals' = goals ++ [g] /\ g < last1 goals
             /\ accepted (trace m) = 1%nat /\ warnings (trace m) = 0%nat
             /\ Numpy.sub data (func next') = inr residuals'
     end.
Proof.
  intros HP. cbv zeta. unfold iteration.
  destruct (Numpy.dot_mv (Numpy.transpose (jac nxt)) res) as [e | jtr];
    [rewrite bind_lift_inl; cbn; repeat split; auto; constructor | ].
  rewrite bind_lift_inr.
  match goal with
  | |- context [bind (marquardt_loop ?d ?f ?s ?rn ?pv ?h ?g ?gs ?n ?rs ?l) _] =>
      pose proof (marquardt_loop_spec pv h g gs n rs l HP) as Hloop;
      cbv zeta in Hloop;
      set (loop := marquardt_loop d f s rn pv h g gs n rs l) in *
  end.
  destruct Hloop as [Htrace Hout].
  apply damping_only_in in Htrace. destruct Htrace as [Honly Hin].
  destruct (damping_only_counts _ Honly) as [Hacc [Hwarn Hdiv]].
  rewrite trace_bind, outcome_bind.
  destruct (outcome loop) as [e | [next' residuals' goal lm' | residuals' lm']].
  - rewrite app_nil_r. repeat split; auto.
  - destruct Hout as [HP' [Hsub [Hgoal Hlt]]].
    rewrite bind_tell. unfold converged. rewrite last2_snoc.
    destruct (Qeq_bool (last1 goals) 0) eqn:Hzero.
    + cbn [bind tell ret trace outcome fst snd app].
      split; [apply damping_in_app; [exact Hin | repeat constructor] | ].
      split.
      * intros Hnorm _. apply Qeq_bool_iff in Hzero.
        pose proof (norm2_nonneg residuals') as Hrms.
        pose proof (Hnorm next') as Hreg. rewrite Hgoal in Hlt. lra.
      * split; [exact HP' | ]. exists goal.
        rewrite accepted_app, warnings_app, Hacc, Hwarn. repeat split; auto.
    + rewrite bind_ret.
      destruct (Qle_bool _ tol); cbn [bind tell ret trace outcome fst snd app].
      * split; [apply damping_in_app; [exact Hin | repeat constructor] | ].
        split.
        -- intros _ Hd. apply in_app_iff in Hd.
           destruct Hd as [Hd | [Hd | []]]; [auto | discriminate].
        -- right. exists goal.
           rewrite accepted_app, warnings_app, Hacc, Hwarn. repeat split; auto.
      * split; [apply damping_in_app; [exact Hin | repeat constructor] | ].
        split.
        -- intros _ Hd. apply in_app_iff in Hd.
           destruct Hd as [Hd | [Hd | []]]; [auto | discriminate].
        -- split; [exact HP' | ]. exists goal.
           rewrite accepted_app, warnings_app, Hacc, Hwarn. repeat split; auto.
  - cbn [bind tell ret trace outcome fst snd app].
    split; [apply damping_in_app; [exact Hin | repeat constructor] | ].
    split.
    + intros _ Hd. apply in_app_iff in Hd.
      destruct Hd as [Hd | [Hd | []]]; [auto | discriminate].
    + left. rewrite accepted_app, warnings_app, Hacc, Hwarn. repeat split; auto.
Qed.

(** The outer loop. *)
Lemma iterations_spec (n : nat) :
  forall nxt res goals lm, P lm ->
  let m := iterations data func jac lmstep maxsteps tol reg_norm reg_grad
             reg_hess n nxt res goals lm in
  damping_in P (trace m)
  /\ ((forall x, 0 <= reg_norm x) -> ~ In DivideByZero (trace m))
  /\ forall r, outcome m = inr r ->
       length (goal_p_it r) = (length goals + accepted (trace m))%nat
       /\ (descending goals -> descending (goal_p_it r))
       /\ (Numpy.sub data (func nxt) = inr res ->
           warnings (trace m) = 0%nat ->
           Numpy.sub data (func (estimate r)) = inr (residuals r))
       /\ (accepted (trace m) + warnings (trace m) <= n)%nat
       /\ (warnings (trace m) <= 1)%nat
       /\ (0 < n -> 1 <= accepted (trace m) + warnings (trace m))%nat.
Proof.
  induction n as [ | n' IH]; intros nxt res goals lm HP; cbv zeta.
  - cbn. split; [constructor | ]. split; [auto | ].
    intros r [= <-]. cbn. repeat split; auto; lia.
  - cbn [iterations].
    pose proof (iteration_spec nxt res goals lm HP) as Hstep.
    cbv zeta in Hstep. destruct Hstep as [Hin [Hdiv Hout]].
    rewrite trace_bind, outcome_bind.
    destruct (outcome (iteration _ _ _ _ _ _ _ _ _ _ _ _ _))
      as [e | [r0 | next' residuals' goals' lm']].
    + rewrite app_nil_r. split; [exact Hin | ]. split; [exact Hdiv | ].
      intros r [=].
    + cbn [trace outcome ret fst snd]. rewrite app_nil_r.
      split; [exact Hin | ]. split; [exact Hdiv | ].
      intros r [= <-].
      destruct Hout as [[Hest [Hgoals [Hacc Hwarn]]] | [g [Hgoals [Hlt [Hacc [Hwarn Hsub]]]]]];
        rewrite Hacc, Hwarn, Hgoals.
      * repeat split; intros; auto; try lia; discriminate.
      * rewrite length_app. cbn [length].
        repeat split; intros; auto; try lia. now apply descending_snoc.
    + destruct Hout as [HP' [g [-> [Hlt [Hacc [Hwarn Hsub]]]]]].
      destruct (IH next' residuals' (goals ++ [g]) lm' HP') as [IHin [IHdiv IHout]].
      split; [apply damping_in_app; assumption | ].
      split.
      * intros Hnorm Hd. apply in_app_iff in Hd.
        destruct Hd as [Hd | Hd]; [exact (Hdiv Hnorm Hd) | exact (IHdiv Hnorm Hd)].
      * intros r Hr. destruct (IHout r Hr) as [Hlen [Hdesc [Hres [Hle [Hw1 Hge]]]]].
        rewrite accepted_app, warnings_app, Hacc, Hwarn.
        rewrite Hlen, length_app. cbn [length].
        repeat split; try lia.
        -- intros Hd. apply Hdesc. now apply descending_snoc.
        -- intros _ Hw. apply Hres; [exact Hsub | lia].
Qed.

End Loops.

(** ** Runs of [marq] *)

Section Runs.

Variables (data init : vector) (func : vector -> vector) (jac : vector -> matrix).
Variables (lmstart lmstep : pynum) (maxsteps maxit : Z) (tol : Q).
Variables (reg_norm : option norm_fn) (reg_grad : option grad_fn)
          (reg_hess : option hess_fn).

Variable P : pynum -> Prop.
Hypothesis P_shrink : forall lm lm',
  P lm -> lm_min < toQ lm -> pydiv lm lmstep = inr lm' -> P lm'.
Hypothesis P_grow : forall lm,
  P lm -> toQ lm < lm_max -> P (pymul lm lmstep).
Hypothesis P_start : P lmstart.

Let run : M result :=
  marq data init func jac lmstart lmstep maxsteps maxit tol
    reg_norm reg_grad reg_hess.

Lemma marq_spec :
  damping_in P (trace run)
  /\ ((forall x, 0 <= effective_norm reg_norm reg_grad reg_hess x) ->
      ~ In DivideByZero (trace run))
  /\ forall r, outcome run = inr r ->
       length (goal_p_it r) = (accepted (trace run) + 1)%nat
       /\ descending (goal_p_it r)
       /\ (warnings (trace run) = 0%nat ->
           Numpy.sub data (func (estimate r)) = inr (residuals r))
       /\ (accepted (trace run) + warnings (trace run) <= Z.to_nat maxit)%nat
       /\ (warnings (trace run) <= 1)%nat
       /\ (0 < Z.to_nat maxit ->
           1 <= accepted (trace run) + warnings (trace run))%nat.
Proof.
  unfold run, marq, effective_norm.
  destruct (regularization reg_norm reg_grad reg_hess) as [[rn rg] rh].
  cbn [fst].
  destruct (Numpy.sub data (func init)) as [e | residuals0] eqn:Hsub.
  - rewrite bind_lift_inl. cbn. split; [constructor | ].
    split; [auto | intros r [=]].
  - rewrite bind_lift_inr, bind_tell. cbn [trace outcome fst snd].
    change (snd ?x) with (outcome x). change (fst ?x) with (trace x).
    match goal with
    | |- context [iterations ?d ?f ?j ?s ?ms ?t ?n ?g ?h ?k ?nx ?rs ?gs ?l] =>
        pose proof (iterations_spec d f j s ms t n g h P P_shrink P_grow
                      k nx rs gs l P_start) as Hspec;
        cbv zeta in Hspec;
        set (loop := iterations d f j s ms t n g h k nx rs gs l) in *
    end.
    destruct Hspec as [Hin [Hdiv Hout]].
    split; [constructor; [exact P_start | exact Hin] | ].
    split.
    + intros Hnorm [Hd | Hd]; [discriminate | exact (Hdiv Hnorm Hd)].
    + intros r Hr. destruct (Hout r Hr) as [Hlen [Hdesc [Hres [Hle [Hw1 Hge]]]]].
      unfold accepted, warnings in *. cbn [filter length] in *.
      repeat split; auto; try lia.
      apply Hdesc. exact I.
Qed.

End Runs.

Lemma any_lm_shrink (lmstep lm lm' : pynum) :
  True -> lm_min < toQ lm -> pydiv lm lmstep = inr lm' -> True.
Proof. auto. Qed.

Lemma any_lm_grow (lmstep lm : pynum) : True -> toQ lm < lm_max -> True.
Proof. auto. Qed.

(** C4: the goal-function history that [marq] returns is non-increasing:
    [goals[i+1] <= goals[i]] for every consecutive pair of entries. *)
Theorem goal_history_nonincreasing data init func jac lmstart lmstep
    maxsteps maxit tol reg_norm reg_grad reg_hess (r : result) :
  outcome (marq data init func jac lmstart lmstep maxsteps maxit tol
             reg_norm reg_grad reg_hess) = inr r ->
  nonincreasing (goal_p_it r).
Proof.
  intros Hr.
  destruct (marq_spec data init func jac lmstart lmstep maxsteps maxit tol
              reg_norm reg_grad reg_hess (fun _ => True)
              (any_lm_shrink lmstep) (any_lm_grow lmstep) I) as [_ [_ Hout]].
  destruct (Hout r Hr) as [_ [Hdesc _]].
  apply descending_nonincreasing. exact Hdesc.
Qed.

Lemma goal_history_nonincreasing_witness :
  nonincreasing [1; 10000 # 10201; 10201000000 # 12591308521].
Proof.
  apply (goal_history_nonincreasing [1] [0] identity_model identity_jac
           lmstart_default lmstep_default 20 2 tol_default None None None
           (mkResult [11211 # 112211] [101000 # 112211]
              [1; 10000 # 10201; 10201000000 # 12591308521])).
  vm_compute. reflexivity.
Defined.

(** C8: the goal-function history that [marq] returns has one entry more
    than the number of accepted outer iterations; with [maxit = 1] there
    is exactly one outer iteration, and the history has 2 entries when it
    accepts a step and 1 entry when it stagnates. *)
Theorem goal_history_length data init func jac lmstart lmstep
    maxsteps maxit tol reg_norm reg_grad reg_hess (r : result) :
  let run := marq data init func jac lmstart lmstep maxsteps maxit tol
               reg_norm reg_grad reg_hess in
  outcome run = inr r ->
  length (goal_p_it r) = (accepted (trace run) + 1)%nat
  /\ (maxit = 1%Z ->
      (accepted (trace run) = 1%nat /\ warnings (trace run) = 0%nat
       /\ length (goal_p_it r) = 2%nat)
      \/ (accepted (trace run) = 0%nat /\ warnings (trace run) = 1%nat
          /\ length (goal_p_it r) = 1%nat)).
Proof.
  intros run Hr. subst run.
  destruct (marq_spec data init func jac lmstart lmstep maxsteps maxit tol
              reg_norm reg_grad reg_hess (fun _ => True)
              (any_lm_shrink lmstep) (any_lm_grow lmstep) I) as [_ [_ Hout]].
  destruct (Hout r Hr) as [Hlen [_ [_ [Hle [Hw1 Hge]]]]].
  split; [exact Hlen | ].
  intros ->. change (Z.to_nat 1) with 1%nat in *.
  specialize (Hge (Nat.lt_0_succ 0)). lia.
Qed.

Lemma goal_history_length_witness :
  length [1; 10000 # 10201] = 2%nat
  /\ accepted (trace (marq [1] [0] identity_model identity_jac lmstart_default
                        lmstep_default 20 1 tol_default None None None)) = 1%nat.
Proof.
  destruct (goal_history_length [1] [0] identity_model identity_jac
              lmstart_default lmstep_default 20 1 tol_default None None None
              (mkResult [1 # 101] [100 # 101] [1; 10000 # 10201]))
    as [Hlen _].
  - vm_compute. reflexivity.
  - split; [reflexivity | vm_compute; reflexivity].
Defined.

Lemma effective_norm_nonneg reg_norm reg_grad reg_hess :
  (forall n, reg_norm = Some n -> forall x, 0 <= n x) ->
  forall x, 0 <= effective_norm reg_norm reg_grad reg_hess x.
Proof.
  intros Hn x. unfold effective_norm.
  destruct reg_norm as [n | ], reg_grad, reg_hess; cbn;
    try apply Qle_refl. now apply Hn.
Qed.

(** C10: when the regularization norm is non-negative at every parameter
    vector, no run of [marq] evaluates the relative improvement with a
    zero divisor: an accepted goal is non-negative and below the last
    goal, which is the divisor. *)
Theorem relative_test_divisor_nonzero data init func jac lmstart lmstep
    maxsteps maxit tol reg_norm reg_grad reg_hess :
  (forall n, reg_norm = Some n -> forall x, 0 <= n x) ->
  ~ In DivideByZero
      (trace (marq data init func jac lmstart lmstep maxsteps maxit tol
                reg_norm reg_grad reg_hess)).
Proof.
  intros Hn.
  destruct (marq_spec data init func jac lmstart lmstep maxsteps maxit tol
              reg_norm reg_grad reg_hess (fun _ => True)
              (any_lm_shrink lmstep) (any_lm_grow lmstep) I) as [_ [Hdiv _]].
  apply Hdiv. now apply effective_norm_nonneg.
Qed.

Lemma relative_test_divisor_nonzero_witness :
  ~ In DivideByZero
      (trace (marq [0] [1] identity_model identity_jac lmstart_default
                lmstep_default 20 3 tol_default
                (Some Numpy.norm2) (Some no_grad) (Some no_hess))).
Proof.
  apply (relative_test_divisor_nonzero [0] [1] identity_model identity_jac
           lmstart_default lmstep_default 20 3 tol_default
           (Some Numpy.norm2) (Some no_grad) (Some no_hess)).
  intros n [= <-] x. apply norm2_nonneg.
Defined.

(** With a norm that takes negative values the divisor can be zero: from
    the goal 0 a step of goal [-1/10201] is accepted. *)
Example negative_norm_divides_by_zero :
  trace (marq [0] [0] identity_model identity_jac lmstart_default
           lmstep_default 20 1 tol_default
           (Some negative_norm) (Some push_grad) (Some no_hess))
  = [Damping (PyInt 100); Damping (PyInt 10); Accept (-10201 # 104060401);
     DivideByZero].
Proof. vm_compute. reflexivity. Qed.

(** ** The damping parameter *)

Lemma inject_Z_pos_ge_1 (x : Z) : 0 < inject_Z x -> (1 <= x)%Z.
Proof.
  intros H. change 0 with (inject_Z 0) in H. rewrite <- Zlt_Qlt in H. lia.
Qed.

Lemma Qdiv_bounds (a s lo hi : Q) :
  1 <= s -> lo < a -> a <= hi * s -> 0 <= lo ->
  0 <= a / s <= hi * s /\ lo / s <= a / s.
Proof.
  intros Hs Hlo Hhi Hlo0.
  assert (Hs0 : 0 < s) by lra.
  assert (Hne : ~ s == 0) by lra.
  repeat split.
  - apply Qle_shift_div_l; lra.
  - apply Qle_shift_div_r; [exact Hs0 | ]. nra.
  - apply Qle_shift_div_l; [exact Hs0 | ].
    assert (E : lo / s * s == lo) by (field; exact Hne). rewrite E. lra.
Qed.

Lemma damping_invariant_shrink (lmstart lmstep lm lm' : pynum) :
  1 <= toQ lmstep ->
  damping_invariant lmstart lmstep lm -> lm_min < toQ lm ->
  pydiv lm lmstep = inr lm' -> damping_invariant lmstart lmstep lm'.
Proof.
  unfold damping_invariant. intros Hs [[H0 Hup] Hfl] Hlt Hdiv.
  assert (Hmin : 0 <= lm_min) by (unfold lm_min; lra).
  destruct (Qdiv_bounds (toQ lm) (toQ lmstep) lm_min lm_max Hs Hlt Hup Hmin)
    as [[Hd0 Hdup] Hdlo].
  destruct lm as [x | a], lmstep as [y | b]; cbn [pydiv toQ is_float] in *;
    try (destruct (Qeq_bool _ 0); [discriminate | ];
         injection Hdiv as <-; cbn [toQ is_float];
         repeat split; auto; fail).
  destruct (y =? 0)%Z; [discriminate | ]. injection Hdiv as <-. cbn [toQ is_float].
  assert (Hx : (1 <= x)%Z) by (apply inject_Z_pos_ge_1; unfold lm_min in Hlt; lra).
  assert (Hy : (1 <= y)%Z).
  { apply inject_Z_pos_ge_1. lra. }
  split.
  - split.
    + change 0 with (inject_Z 0). rewrite <- Zle_Qle. apply Z.div_pos; lia.
    + apply Qle_trans with (inject_Z x); [ | exact Hup].
      rewrite <- Zle_Qle.
      apply Z.le_trans with (x / 1)%Z; [ | rewrite Z.div_1_r; lia].
      apply Z.div_le_compat_l; lia.
  - intros HF. destruct (Hfl HF) as [_ Habs]. discriminate (Habs eq_refl).
Qed.

Lemma damping_invariant_grow (lmstart lmstep lm : pynum) :
  1 <= toQ lmstep ->
  damping_invariant lmstart lmstep lm -> toQ lm < lm_max ->
  damping_invariant lmstart lmstep (pymul lm lmstep).
Proof.
  unfold damping_invariant. intros Hs [[H0 Hup] Hfl] Hlt.
  assert (Hmul : 0 <= toQ lm * toQ lmstep <= lm_max * toQ lmstep
                 /\ toQ lm <= toQ lm * toQ lmstep) by (repeat split; nra).
  destruct Hmul as [[Hm0 Hmup] Hmge].
  destruct lm as [x | a], lmstep as [y | b]; cbn [pymul toQ is_float] in *;
    try (split; [split; assumption | ];
         intros HF; destruct (Hfl HF) as [Hlo _]; split; [lra | reflexivity]).
  rewrite inject_Z_mult. split; [split; assumption | ].
  intros HF. destruct (Hfl HF) as [_ Habs]. discriminate (Habs eq_refl).
Qed.

Lemma damping_invariant_start (lmstart lmstep : pynum) :
  1 <= toQ lmstep -> within_bounds lmstart ->
  damping_invariant lmstart lmstep lmstart.
Proof.
  unfold damping_invariant, within_bounds, lm_min, lm_max.
  intros Hs [Hlo Hhi]. split; [split; nra | ].
  intros HF. split.
  - apply Qle_shift_div_r; nra.
  - intros Hint. destruct HF as [HF | HF]; congruence.
Qed.

(** The size of the step over the bounds: when [lmstart] lies in
    [[1e-10, 1e10]] and [lmstep >= 1], every value that [lm_param] takes
    lies in [[0, 1e10*lmstep]], and it is at least [1e-10/lmstep] when
    [lmstart] or [lmstep] is a float. *)
Theorem damping_within_step_of_bounds data init func jac lmstart lmstep
    maxsteps maxit tol reg_norm reg_grad reg_hess :
  1 <= toQ lmstep -> within_bounds lmstart ->
  damping_in (damping_bound lmstart lmstep)
    (trace (marq data init func jac lmstart lmstep maxsteps maxit tol
              reg_norm reg_grad reg_hess)).
Proof.
  intros Hs Hstart.
  destruct (marq_spec data init func jac lmstart lmstep maxsteps maxit tol
              reg_norm reg_grad reg_hess (damping_invariant lmstart lmstep))
    as [Hin _].
  - intros lm lm'. apply damping_invariant_shrink. exact Hs.
  - intros lm. apply damping_invariant_grow. exact Hs.
  - apply damping_invariant_start; assumption.
  - unfold damping_in in *.
    apply (Forall_impl _ (P := fun e => match e with
                                        | Damping v => damping_invariant lmstart lmstep v
                                        | _ => True
                                        end)); [ | exact Hin].
    intros [v | | | ]; auto.
    unfold damping_invariant, damping_bound. intros [Hb Hfl].
    split; [exact Hb | ]. intros HF. now destruct (Hfl HF).
Qed.

Lemma damping_within_step_of_bounds_witness :
  1 <= toQ lmstep_default /\ within_bounds lmstart_default
  /\ damping_in (damping_bound lmstart_default lmstep_default)
       (trace (marq [1] [0] identity_model identity_jac lmstart_default
                 lmstep_default maxsteps_default maxit_default tol_default
                 None None None)).
Proof.
  assert (Hs : 1 <= toQ lmstep_default) by (vm_compute; discriminate).
  assert (Hb : within_bounds lmstart_default)
    by (split; vm_compute; discriminate).
  split; [exact Hs | split; [exact Hb | ]].
  apply (damping_within_step_of_bounds [1] [0] identity_model identity_jac
           lmstart_default lmstep_default maxsteps_default maxit_default
           tol_default None None None Hs Hb).
Defined.

(** The start of the damping is the caller's: [lmstart] is used as it is
    given, here [1e11]. *)
Example lmstart_is_not_clamped :
  dampings (trace (marq [1] [0] identity_model identity_jac
                     (PyFloat 100000000000) lmstep_default 20 1 tol_default
                     None None None))
  = [PyFloat 100000000000; PyFloat (100000000000 # 10)].
Proof. vm_compute. reflexivity. Qed.

(** C3, on the code: [lm_param] leaves [[1e-10, 1e10]] from a start within
    the bounds. With [lmstart = 5e-10] and [lmstep = 10.0] the first
    accepted step divides it to [5e-11], below [10**(-10)]: the guard
    tests the value before the division. With the defaults, the ints
    [lmstart = 100] and [lmstep = 10], three accepted steps bring it to
    [100/10/10/10 = 0] by floor division, where it stays. *)
Theorem damping_steps_over_bounds :
  (within_bounds (PyFloat (1 # 2000000000))
   /\ dampings (trace (marq [1] [0] identity_model identity_jac
                         (PyFloat (1 # 2000000000)) (PyFloat 10) 20 1
                         tol_default None None None))
      = [PyFloat (1 # 2000000000); PyFloat (1 # 20000000000)]
   /\ ~ within_bounds (PyFloat (1 # 20000000000)))
  /\ (within_bounds lmstart_default
      /\ dampings (trace (marq [1] [0] identity_model identity_jac
                            lmstart_default lmstep_default maxsteps_default
                            maxit_default tol_default None None None))
         = [PyInt 100; PyInt 10; PyInt 1; PyInt 0] ++ repeat (PyInt 0) 20
      /\ ~ within_bounds (PyInt 0)).
Proof.
  unfold within_bounds, lm_min, lm_max. cbn [toQ].
  split; (split; [split; vm_compute; discriminate | ]);
    (split; [vm_compute; reflexivity | ]);
    intros [H _]; vm_compute in H; now apply H.
Qed.

(** X1: a run of [marq] that ends without the stagnation warning returns
    the residuals of its estimate, [data - func(estimate)]. *)
Lemma accepted_residuals_match data init func jac lmstart lmstep
    maxsteps maxit tol reg_norm reg_grad reg_hess (r : result) :
  outcome (marq data init func jac lmstart lmstep maxsteps maxit tol
             reg_norm reg_grad reg_hess) = inr r ->
  warnings (trace (marq data init func jac lmstart lmstep maxsteps maxit tol
                     reg_norm reg_grad reg_hess)) = 0%nat ->
  Numpy.sub data (func (estimate r)) = inr (residuals r).
Proof.
  intros Hr Hw.
  destruct (marq_spec data init func jac lmstart lmstep maxsteps maxit tol
              reg_norm reg_grad reg_hess (fun _ => True)
              (any_lm_shrink lmstep) (any_lm_grow lmstep) I) as [_ [_ Hout]].
  destruct (Hout r Hr) as [_ [_ [Hres _]]]. exact (Hres Hw).
Qed.

(** * Further properties of the solvers *)

(** ** How an outer iteration and a run end *)

Section Outcomes.

Variables (data : vector) (func : vector -> vector) (jac : vector -> matrix).
Variables (lmstep : pynum) (maxsteps : Z) (tol : Q).
Variables (reg_norm : norm_fn) (reg_grad : grad_fn) (reg_hess : hess_fn).

Lemma iteration_cases (nxt res : vector) (goals : list Q) (lm : pynum) :
  let m := iteration data func jac lmstep maxsteps tol reg_norm reg_grad
             reg_hess nxt res goals lm in
  match outcome m with
  | inl _ => True
  | inr (Break r) =>
      (estimate r = nxt /\ goal_p_it r = goals
       /\ accepted (trace m) = 0%nat /\ warnings (trace m) = 1%nat)
      \/ (exists g, goal_p_it r = goals ++ [g]
          /\ goal_at data func reg_norm (estimate r) g
          /\ accepted (trace m) = 1%nat /\ warnings (trace m) = 0%nat
          /\ within_tol (goals ++ [g]) tol)
  | inr (Continue next' residuals' goals' lm') =>
      exists g, goals' = goals ++ [g]
        /\ Numpy.sub data (func next') = inr residuals'
        /\ g = Numpy.norm2 residuals' + reg_norm next'
        /\ accepted (trace m) = 1%nat /\ warnings (trace m) = 0%nat
  end.
Proof.
  cbv zeta. unfold iteration.
  destruct (Numpy.dot_mv (Numpy.transpose (jac nxt)) res) as [e | jtr];
    [rewrite bind_lift_inl; exact I | ].
  rewrite bind_lift_inr.
  match goal with
  | |- context [bind (marquardt_loop ?d ?f ?s ?rn ?pv ?h ?g ?gs ?n ?rs ?l) _] =>
      pose proof (marquardt_loop_spec d f s rn (fun _ => True)
                    (any_lm_shrink s) (any_lm_grow s) pv h g gs n rs l I)
        as Hloop;
      cbv zeta in Hloop;
      set (loop := marquardt_loop d f s rn pv h g gs n rs l) in *
  end.
  destruct Hloop as [Htrace Hout].
  apply damping_only_in in Htrace. destruct Htrace as [Honly _].
  destruct (damping_only_counts _ Honly) as [Hacc [Hwarn _]].
  rewrite trace_bind, outcome_bind.
  destruct (outcome loop) as [e | [next' residuals' goal lm' | residuals' lm']].
  - exact I.
  - destruct Hout as [_ [Hsub [Hgoal Hlt]]].
    rewrite bind_tell. unfold converged. rewrite last2_snoc.
    destruct (Qeq_bool (last1 goals) 0) eqn:Hzero.
    + cbn [bind tell ret trace outcome fst snd app].
      exists goal. rewrite accepted_app, warnings_app, Hacc, Hwarn.
      repeat split; auto.
    + rewrite bind_ret.
      destruct (Qle_bool _ tol) eqn:Htol;
        cbn [bind tell ret trace outcome fst snd app].
      * right. exists goal. rewrite accepted_app, warnings_app, Hacc, Hwarn.
        split; [reflexivity | ]. split; [exists residuals'; auto | ].
        split; [reflexivity | ]. split; [reflexivity | ].
        unfold within_tol. rewrite last2_snoc, last1_snoc. split.
        -- intros Habs. apply Qeq_bool_neq in Hzero. contradiction.
        -- apply Qle_bool_iff. rewrite last1_snoc in Htol. exact Htol.
      * exists goal. rewrite accepted_app, warnings_app, Hacc, Hwarn.
        repeat split; auto.
  - cbn [bind tell ret trace outcome fst snd app].
    left. rewrite accepted_app, warnings_app, Hacc, Hwarn. repeat split; auto.
Qed.

Lemma iterations_outcome (n : nat) :
  forall nxt res goals lm,
  let m := iterations data func jac lmstep maxsteps tol reg_norm reg_grad
             reg_hess n nxt res goals lm in
  forall r, outcome m = inr r ->
    (goal_at data func reg_norm nxt (last1 goals) ->
     goal_at data func reg_norm (estimate r) (last1 (goal_p_it r)))
    /\ (accepted (trace m) = 0%nat -> estimate r = nxt /\ goal_p_it r = goals)
    /\ (warnings (trace m) = 0%nat -> (accepted (trace m) < n)%nat ->
        within_tol (goal_p_it r) tol).
Proof.
  induction n as [ | n' IH]; intros nxt res goals lm; cbv zeta.
  - cbn. intros r [= <-]. cbn. repeat split; intros; auto; lia.
  - cbn [iterations].
    pose proof (iteration_cases nxt res goals lm) as Hstep. cbv zeta in Hstep.
    rewrite trace_bind, outcome_bind.
    destruct (outcome (iteration _ _ _ _ _ _ _ _ _ _ _ _ _))
      as [e | [r0 | next' residuals' goals' lm']].
    + intros r [=].
    + cbn [trace outcome ret fst snd]. rewrite app_nil_r. intros r [= <-].
      destruct Hstep as [[Hest [Hgoals [Hacc Hwarn]]]
                        | [g [Hgoals [Hgoal [Hacc [Hwarn Htol]]]]]];
        rewrite Hacc, Hwarn, Hgoals.
      * rewrite Hest. repeat split; intros; auto; try congruence.
      * rewrite last1_snoc.
        split; [intros _; exact Hgoal | ].
        split; [intros Habs; discriminate Habs | intros _ _; exact Htol].
    + destruct Hstep as [g [-> [Hsub [Hgoal [Hacc Hwarn]]]]].
      intros r Hr.
      destruct (IH next' residuals' (goals ++ [g]) lm' r Hr) as [IHg [_ IHt]].
      rewrite accepted_app, warnings_app, Hacc, Hwarn.
      split; [ | split].
      * intros _. apply IHg. rewrite last1_snoc. exists residuals'. auto.
      * discriminate.
      * intros Hw Ha. apply IHt; lia.
Qed.

End Outcomes.

Lemma outcome_pair {A} (l : list event) (o : exn + A) : outcome (l, o) = o.
Proof. reflexivity. Qed.

Lemma trace_pair {A} (l : list event) (o : exn + A) : trace (l, o) = l.
Proof. reflexivity. Qed.

Lemma marq_unfold data init func jac lmstart lmstep maxsteps maxit tol
    reg_norm reg_grad reg_hess :
  let rn := effective_norm reg_norm reg_grad reg_hess in
  let rg := snd (fst (regularization reg_norm reg_grad reg_hess)) in
  let rh := snd (regularization reg_norm reg_grad reg_hess) in
  marq data init func jac lmstart lmstep maxsteps maxit tol
    reg_norm reg_grad reg_hess =
  match Numpy.sub data (func init) with
  | inl e => ([], inl e)
  | inr res0 =>
      let m := iterations data func jac lmstep maxsteps tol rn rg rh
                 (Z.to_nat maxit) init res0 [Numpy.norm2 res0 + rn init]
                 lmstart in
      (Damping lmstart :: trace m, outcome m)
  end.
Proof.
  cbv zeta. unfold marq, effective_norm.
  destruct (regularization reg_norm reg_grad reg_hess) as [[rn rg] rh].
  cbn [fst snd].
  destruct (Numpy.sub data (func init)) as [e | res0].
  - now rewrite bind_lift_inl.
  - now rewrite bind_lift_inr, bind_tell.
Qed.

(** X3: the last entry of the goal history that [marq] returns is the
    goal function at the estimate that it returns,
    [norm(data - func(estimate))**2 + reg_norm(estimate)], also when the
    run ends by stagnation. *)
Theorem last_goal_is_goal_of_estimate data init func jac lmstart lmstep
    maxsteps maxit tol reg_norm reg_grad reg_hess (r : result) :
  outcome (marq data init func jac lmstart lmstep maxsteps maxit tol
             reg_norm reg_grad reg_hess) = inr r ->
  goal_at data func (effective_norm reg_norm reg_grad reg_hess)
    (estimate r) (last1 (goal_p_it r)).
Proof.
  rewrite marq_unfold. cbv zeta.
  destruct (Numpy.sub data (func init)) as [e | res0] eqn:Hsub;
    rewrite outcome_pair; [intros [=] | ].
  intros Hr.
  match type of Hr with
  | outcome (iterations ?d ?f ?j ?s ?ms ?t ?rn ?rg ?rh ?n ?nx ?rs ?gs ?l) = _ =>
      destruct (iterations_outcome d f j s ms t rn rg rh n nx rs gs l r Hr)
        as [Hgoal _]
  end.
  apply Hgoal. exists res0. split; [exact Hsub | reflexivity].
Qed.

Lemma last_goal_is_goal_of_estimate_witness :
  goal_at [0] cubic (effective_norm None None None) [1] (last1 [1]).
Proof.
  apply (last_goal_is_goal_of_estimate [0] [1] cubic cubic_jac (PyInt 0)
           lmstep_default 1 maxit_default tol_default None None None
           (mkResult [1] [-2] [1])).
  vm_compute. reflexivity.
Defined.

(** X4: a run of [marq] that accepts no step returns the initial
    parameters [init], and a goal history that holds the initial goal
    only. *)
Theorem nothing_accepted_returns_init data init func jac lmstart lmstep
    maxsteps maxit tol reg_norm reg_grad reg_hess (r : result) :
  let run := marq data init func jac lmstart lmstep maxsteps maxit tol
               reg_norm reg_grad reg_hess in
  outcome run = inr r -> accepted (trace run) = 0%nat ->
  estimate r = init
  /\ exists res0, Numpy.sub data (func init) = inr res0
       /\ goal_p_it r =
          [Numpy.norm2 res0 + effective_norm reg_norm reg_grad reg_hess init].
Proof.
  cbv zeta. rewrite marq_unfold. cbv zeta.
  destruct (Numpy.sub data (func init)) as [e | res0] eqn:Hsub;
    rewrite outcome_pair, trace_pair; [intros [=] | ].
  intros Hr Hacc.
  match type of Hr with
  | outcome (iterations ?d ?f ?j ?s ?ms ?t ?rn ?rg ?rh ?n ?nx ?rs ?gs ?l) = _ =>
      destruct (iterations_outcome d f j s ms t rn rg rh n nx rs gs l r Hr)
        as [_ [Hnone _]]
  end.
  destruct (Hnone Hacc) as [Hest Hgoals].
  split; [exact Hest | ]. exists res0. split; [reflexivity | exact Hgoals].
Qed.

Lemma nothing_accepted_returns_init_witness :
  estimate (mkResult [1] [-2] [1]) = [1]
  /\ exists res0, Numpy.sub [0] (cubic [1]) = inr res0
       /\ goal_p_it (mkResult [1] [-2] [1]) =
          [Numpy.norm2 res0 + effective_norm None None None [1]].
Proof.
  apply (nothing_accepted_returns_init [0] [1] cubic cubic_jac (PyInt 0)
           lmstep_default 1 maxit_default tol_default None None None
           (mkResult [1] [-2] [1])).
  - vm_compute. reflexivity.
  - vm_compute. reflexivity.
Defined.

(** X5: when [marq] returns without the stagnation warning after fewer
    than [maxit] accepted iterations, it stopped on the convergence test:
    the divisor [goals[-2]] is not zero and
    [abs((goals[-1] - goals[-2])/goals[-2]) <= tol]. *)
Theorem early_return_is_within_tol data init func jac lmstart lmstep
    maxsteps maxit tol reg_norm reg_grad reg_hess (r : result) :
  let run := marq data init func jac lmstart lmstep maxsteps maxit tol
               reg_norm reg_grad reg_hess in
  outcome run = inr r -> warnings (trace run) = 0%nat ->
  (accepted (trace run) < Z.to_nat maxit)%nat ->
  within_tol (goal_p_it r) tol.
Proof.
  cbv zeta. rewrite marq_unfold. cbv zeta.
  destruct (Numpy.sub data (func init)) as [e | res0] eqn:Hsub;
    rewrite outcome_pair, trace_pair; [intros [=] | ].
  intros Hr Hwarn Hacc.
  match type of Hr with
  | outcome (iterations ?d ?f ?j ?s ?ms ?t ?rn ?rg ?rh ?n ?nx ?rs ?gs ?l) = _ =>
      destruct (iterations_outcome d f j s ms t rn rg rh n nx rs gs l r Hr)
        as [_ [_ Htol]]
  end.
  apply Htol; [exact Hwarn | exact Hacc].
Qed.

Lemma early_return_is_within_tol_witness :
  within_tol [1; 10000 # 10201] 1.
Proof.
  apply (early_return_is_within_tol [1] [0] identity_model identity_jac
           lmstart_default lmstep_default maxsteps_default maxit_default 1
           None None None (mkResult [1 # 101] [100 # 101] [1; 10000 # 10201])).
  - vm_compute. reflexivity.
  - vm_compute. reflexivity.
  - vm_compute. lia.
Defined.

Lemma accepted_residuals_match_witness :
  Numpy.sub [1] (identity_model [1 # 101]) = inr [100 # 101].
Proof.
  apply (accepted_residuals_match [1] [0] identity_model identity_jac
           lmstart_default lmstep_default 20 1 tol_default None None None
           (mkResult [1 # 101] [100 # 101] [1; 10000 # 10201])).
  - vm_compute. reflexivity.
  - vm_compute. reflexivity.
Defined.

Lemma damped_entries_witness :
  exists system,
    damped [[1; 1]; [1; 2]] lmstart_default = inr system
    /\ forall i j, (i < 2)%nat -> (j < 2)%nat ->
         nth j (nth i system []) 0 =
         nth j (nth i [[1; 1]; [1; 2]] []) 0
         + toQ lmstart_default * nth j (nth j [[1; 1]; [1; 2]] []) 0.
Proof.
  apply (damped_entries [[1; 1]; [1; 2]] lmstart_default 2).
  - reflexivity.
  - repeat constructor.
Defined.

Lemma descending_decreasing (goals : list Q) :
  descending goals -> decreasing goals.
Proof.
  unfold decreasing. induction goals as [ | a rest IH]; intros Hd i Hi.
  - simpl in Hi. lia.
  - destruct rest as [ | b rest']; [simpl in Hi; lia | ].
    destruct Hd as [Hba Hd]. destruct i as [ | i].
    + simpl. exact Hba.
    + change (nth (S (S i)) (a :: b :: rest') 0) with (nth (S i) (b :: rest') 0).
      change (nth (S i) (a :: b :: rest') 0) with (nth i (b :: rest') 0).
      apply IH; [exact Hd | simpl in *; lia].
Qed.

(** X6: the goal-function history that [marq] returns is strictly
    decreasing, [goals[i+1] < goals[i]]: a step whose goal equals the last
    goal is rejected. *)
Theorem goal_history_decreasing data init func jac lmstart lmstep
    maxsteps maxit tol reg_norm reg_grad reg_hess (r : result) :
  outcome (marq data init func jac lmstart lmstep maxsteps maxit tol
             reg_norm reg_grad reg_hess) = inr r ->
  decreasing (goal_p_it r).
Proof.
  intros Hr.
  destruct (marq_spec data init func jac lmstart lmstep maxsteps maxit tol
              reg_norm reg_grad reg_hess (fun _ => True)
              (any_lm_shrink lmstep) (any_lm_grow lmstep) I) as [_ [_ Hout]].
  destruct (Hout r Hr) as [_ [Hdesc _]].
  apply descending_decreasing. exact Hdesc.
Qed.

Lemma goal_history_decreasing_witness :
  decreasing [1; 10000 # 10201; 10201000000 # 12591308521].
Proof.
  apply (goal_history_decreasing [1] [0] identity_model identity_jac
           lmstart_default lmstep_default 20 2 tol_default None None None
           (mkResult [11211 # 112211] [101000 # 112211]
              [1; 10000 # 10201; 10201000000 # 12591308521])).
  vm_compute. reflexivity.
Defined.

(** X7: a run of [marq] that returns has made at most [maxit] outer
    iterations: its goal history has at most [maxit + 1] entries (1 entry
    for [maxit <= 0]), and the stagnation warning is logged at most
    once. *)
Theorem goal_history_bounded data init func jac lmstart lmstep
    maxsteps maxit tol reg_norm reg_grad reg_hess (r : result) :
  let run := marq data init func jac lmstart lmstep maxsteps maxit tol
               reg_norm reg_grad reg_hess in
  outcome run = inr r ->
  (length (goal_p_it r) <= Z.to_nat maxit + 1)%nat
  /\ (accepted (trace run) + warnings (trace run) <= Z.to_nat maxit)%nat
  /\ (warnings (trace run) <= 1)%nat.
Proof.
  cbv zeta. intros Hr.
  destruct (marq_spec data init func jac lmstart lmstep maxsteps maxit tol
              reg_norm reg_grad reg_hess (fun _ => True)
              (any_lm_shrink lmstep) (any_lm_grow lmstep) I) as [_ [_ Hout]].
  destruct (Hout r Hr) as [Hlen [_ [_ [Hle [Hw1 _]]]]]. lia.
Qed.

Lemma goal_history_bounded_witness :
  Nat.le
    (length (goal_p_it (mkResult [11211 # 112211] [101000 # 112211]
                          [1; 10000 # 10201; 10201000000 # 12591308521])))
    (Z.to_nat 2 + 1)%nat.
Proof.
  refine (proj1 (goal_history_bounded [1] [0] identity_model identity_jac
                   lmstart_default lmstep_default 20 2 tol_default
                   None None None _ _)).
  vm_compute. reflexivity.
Defined.

(** X8: a run of [marq] started with [lmstart = 0] is never damped:
    [lm_param] is 0 at every point, since a rejected step multiplies 0 by
    [lmstep]. *)
Theorem zero_damping_stays_zero data init func jac lmstart lmstep
    maxsteps maxit tol reg_norm reg_grad reg_hess :
  toQ lmstart == 0 ->
  damping_in (fun v => toQ v == 0)
    (trace (marq data init func jac lmstart lmstep maxsteps maxit tol
              reg_norm reg_grad reg_hess)).
Proof.
  intros Hstart.
  destruct (marq_spec data init func jac lmstart lmstep maxsteps maxit tol
              reg_norm reg_grad reg_hess (fun v => toQ v == 0))
    as [Hin _]; [ | | exact Hstart | exact Hin].
  - intros lm lm' Hz Hlt. unfold lm_min in Hlt. lra.
  - intros lm Hz _. destruct lm as [x | a], lmstep as [y | b];
      cbn [pymul toQ] in *; try rewrite inject_Z_mult; rewrite Hz; ring.
Qed.

Lemma zero_damping_stays_zero_witness :
  damping_in (fun v => toQ v == 0)
    (trace (marq [0] [1] cubic cubic_jac (PyInt 0) lmstep_default
              maxsteps_default maxit_default tol_default None None None)).
Proof.
  apply (zero_damping_stays_zero [0] [1] cubic cubic_jac (PyInt 0)
           lmstep_default maxsteps_default maxit_default tol_default
           None None None).
  reflexivity.
Defined.

(** X9: with [lmstart] and [lmstep] two ints, as the defaults are,
    [lm_param] is an int at every point: [lm_param /= lmstep] is the floor
    division of Python 2. *)
Theorem int_damping_stays_int data init func jac lmstart lmstep
    maxsteps maxit tol reg_norm reg_grad reg_hess :
  is_float lmstart = false -> is_float lmstep = false ->
  damping_in (fun v => is_float v = false)
    (trace (marq data init func jac lmstart lmstep maxsteps maxit tol
              reg_norm reg_grad reg_hess)).
Proof.
  intros Hstart Hstep.
  destruct (marq_spec data init func jac lmstart lmstep maxsteps maxit tol
              reg_norm reg_grad reg_hess (fun v => is_float v = false))
    as [Hin _]; [ | | exact Hstart | exact Hin].
  - intros lm lm' Hint _ Hdiv.
    destruct lm as [x | a], lmstep as [y | b]; try discriminate.
    cbn [pydiv] in Hdiv. destruct (y =? 0)%Z; [discriminate | ].
    injection Hdiv as <-. reflexivity.
  - intros lm Hint _.
    destruct lm as [x | a], lmstep as [y | b]; try discriminate. reflexivity.
Qed.

Lemma int_damping_stays_int_witness :
  damping_in (fun v => is_float v = false)
    (trace (marq [1] [0] identity_model identity_jac lmstart_default
              lmstep_default maxsteps_default maxit_default tol_default
              None None None)).
Proof.
  apply (int_damping_stays_int [1] [0] identity_model identity_jac
           lmstart_default lmstep_default maxsteps_default maxit_default
           tol_default None None None); reflexivity.
Defined.

(** X10: with [maxsteps <= 0] and [maxit >= 1] no step is attempted: a
    run of [marq] that returns gives back [init] with the residuals of
    [init], and it logs the stagnation warning at its first iteration. *)
Theorem no_attempt_stagnates data init func jac lmstart lmstep
    maxsteps maxit tol reg_norm reg_grad reg_hess (r : result) :
  let run := marq data init func jac lmstart lmstep maxsteps maxit tol
               reg_norm reg_grad reg_hess in
  (maxsteps <= 0)%Z -> (0 < maxit)%Z -> outcome run = inr r ->
  estimate r = init
  /\ Numpy.sub data (func init) = inr (residuals r)
  /\ trace run = [Damping lmstart; Warning].
Proof.
  cbv zeta. intros Hsteps Hit. rewrite marq_unfold. cbv zeta.
  destruct (Numpy.sub data (func init)) as [e | res0] eqn:Hsub;
    rewrite outcome_pair, trace_pair; [intros [=] | ].
  destruct (Z.to_nat maxit) as [ | k] eqn:Hk; [lia | ].
  cbn [iterations]. unfold iteration.
  replace (Z.to_nat maxsteps) with O by lia.
  destruct (Numpy.dot_mv (Numpy.transpose (jac init)) res0) as [e | jtr].
  - rewrite !bind_lift_inl. cbn. intros [=].
  - rewrite bind_lift_inr. cbn. intros [= <-]. cbn. auto.
Qed.

Lemma no_attempt_stagnates_witness :
  estimate (mkResult [0] [1] [1]) = [0]
  /\ Numpy.sub [1] (identity_model [0]) = inr (residuals (mkResult [0] [1] [1]))
  /\ trace (marq [1] [0] identity_model identity_jac lmstart_default
              lmstep_default 0 maxit_default tol_default None None None)
     = [Damping lmstart_default; Warning].
Proof.
  apply (no_attempt_stagnates [1] [0] identity_model identity_jac
           lmstart_default lmstep_default 0 maxit_default tol_default
           None None None (mkResult [0] [1] [1])).
  - lia.
  - reflexivity.
  - vm_compute. reflexivity.
Defined.

(** ** Singular systems in [marq] *)

Lemma gram_zero (N M : nat) (J : matrix) :
  (0 < N)%nat -> zero_matrix N M J ->
  zero_matrix M M (Numpy.dot_mm (Numpy.transpose J) J).
Proof.
  intros HN HJ. pose proof (ncols_zero N M J HN HJ) as Hcols.
  split.
  - unfold Numpy.dot_mm, Numpy.transpose. now rewrite !length_map, length_seq.
  - unfold Numpy.dot_mm. apply Forall_map. apply Forall_forall.
    intros row Hin. unfold Numpy.transpose in Hin.
    apply in_map_iff in Hin. destruct Hin as [j [<- _]].
    split; [now rewrite length_map, length_seq | ].
    apply Forall_map. apply Forall_forall. intros k _.
    apply inner_zero_l. now apply (column_zero N M J j).
Qed.

Lemma dot_mv_transpose (N M : nat) (J : matrix) (v : vector) :
  (0 < N)%nat -> zero_matrix N M J -> length v = N ->
  exists jtr, Numpy.dot_mv (Numpy.transpose J) v = inr jtr /\ length jtr = M.
Proof.
  intros HN HJ Hv. pose proof (ncols_zero N M J HN HJ) as Hcols.
  unfold Numpy.dot_mv.
  assert (E : forallb (fun row => (length row =? length v)%nat)
                (Numpy.transpose J) = true).
  { apply forallb_forall. intros row Hin. unfold Numpy.transpose in Hin.
    apply in_map_iff in Hin. destruct Hin as [j [<- _]].
    destruct (column_zero N M J j HJ) as [Hlen _].
    apply Nat.eqb_eq. congruence. }
  rewrite E. eexists. split; [reflexivity | ].
  unfold Numpy.transpose. now rewrite !length_map, length_seq.
Qed.

Lemma solve_zero (M : nat) (A : matrix) (b : vector) :
  (0 < M)%nat -> zero_matrix M M A -> length b = M ->
  Numpy.solve A b = inl LinAlgError.
Proof.
  intros HM [Hlen Hrows] Hb. unfold Numpy.solve.
  assert (Hsq : Numpy.is_square A = true).
  { unfold Numpy.is_square. apply forallb_forall. intros row Hin.
    rewrite Forall_forall in Hrows. destruct (Hrows row Hin) as [Hr _].
    apply Nat.eqb_eq. congruence. }
  rewrite Hsq. cbn [negb].
  replace (length b =? length A)%nat with true
    by (symmetry; apply Nat.eqb_eq; congruence).
  cbn [negb].
  destruct A as [ | row rest]; [simpl in Hlen; lia | ].
  inversion Hrows as [ | ? ? [_ Hzero] _]; subst.
  cbn [length Numpy.det].
  rewrite (Qeq_eq_bool _ 0 (expansion_zero _ row Hzero 0%nat)).
  reflexivity.
Qed.

Lemma combine_sum_zero (a b : vector) :
  Forall (fun x => x == 0) a -> Forall (fun x => x == 0) b ->
  Forall (fun x => x == 0) (map (fun p => fst p + snd p) (combine a b)).
Proof.
  intros Ha. revert b. induction Ha as [ | x a Hx _ IH]; intros b Hb.
  - constructor.
  - destruct Hb as [ | y b Hy Hb]; [constructor | ].
    cbn [combine map fst snd]. constructor; [rewrite Hx, Hy; ring | ].
    now apply IH.
Qed.

Lemma damped_zero (M : nat) (H : matrix) (lm : pynum) :
  zero_matrix M M H ->
  exists system, damped H lm = inr system /\ zero_matrix M M system.
Proof.
  intros [Hlen Hrows].
  assert (Hshape : Forall (fun row => length row = M) H).
  { apply (Forall_impl _ (P := fun row => length row = M
      /\ Forall (fun x => x == 0) row)); [ | exact Hrows]. now intros row [Hr _]. }
  pose proof (diagonal_square H M Hlen Hshape) as Hdiag.
  assert (Hzdiag : Forall (fun x => x == 0)
                     (Numpy.scale (toQ lm) (Numpy.diagonal H))).
  { unfold Numpy.scale, Numpy.diagonal. rewrite map_map.
    apply Forall_map. apply Forall_forall. intros i Hi.
    apply in_seq in Hi.
    assert (Hz : nth i (nth i H []) 0 == 0).
    { destruct (Nat.lt_ge_cases i (length H)) as [Hlt | Hge].
      - rewrite Forall_forall in Hrows.
        destruct (Hrows (nth i H []) (nth_In _ _ Hlt)) as [Hr Hzero].
        destruct (Nat.lt_ge_cases i (length (nth i H []))) as [Hlt' | Hge'].
        + rewrite Forall_forall in Hzero. apply Hzero. now apply nth_In.
        + rewrite nth_overflow by exact Hge'. reflexivity.
      - rewrite (nth_overflow H) by exact Hge. destruct i; reflexivity. }
    rewrite Hz. ring. }
  unfold damped. eexists. split.
  - apply add_rows_same_length.
    apply (Forall_impl _ (P := fun row => length row = M)); [ | exact Hshape].
    intros row Hrow. unfold Numpy.scale. rewrite length_map. congruence.
  - split; [now rewrite length_map | ].
    apply Forall_map.
    apply (Forall_impl _ (P := fun row => length row = M
      /\ Forall (fun x => x == 0) row)); [ | exact Hrows].
    intros row [Hr Hzero]. split.
    + rewrite length_map, length_combine. unfold Numpy.scale.
      rewrite length_map, Hdiag, Hr. apply Nat.min_id.
    + now apply combine_sum_zero.
Qed.

(** X11: [marq] on a Jacobian of zeros: with [maxit >= 1], [maxsteps >= 1]
    and no regularization, when [jac(init)] has [N >= 1] rows and
    [M >= 1] columns of zeros and [data - func(init)] has length [N], the
    damped system is singular whatever [lm_param] is, and the run ends
    with the [LinAlgError] of the first solve. *)
Theorem marq_zero_jacobian_raises data init func jac lmstart lmstep
    maxsteps maxit tol (N M : nat) (res0 : vector) :
  (0 < N)%nat -> (0 < M)%nat -> (0 < maxsteps)%Z -> (0 < maxit)%Z ->
  Numpy.sub data (func init) = inr res0 -> length res0 = N ->
  zero_matrix N M (jac init) ->
  marq data init func jac lmstart lmstep maxsteps maxit tol None None None
  = ([Damping lmstart], inl LinAlgError).
Proof.
  intros HN HM Hsteps Hit Hsub Hres HJ.
  unfold marq. cbn [regularization]. rewrite Hsub, bind_lift_inr, bind_tell.
  destruct (Z.to_nat maxit) as [ | k] eqn:Hk; [lia | ].
  destruct (Z.to_nat maxsteps) as [ | j] eqn:Hj; [lia | ].
  cbn [iterations]. unfold iteration. rewrite Hj.
  destruct (dot_mv_transpose N M (jac init) res0 HN HJ Hres) as [jtr [-> Hjtr]].
  rewrite bind_lift_inr. cbn [marquardt_loop].
  destruct (damped_zero M _ lmstart (gram_zero N M (jac init) HN HJ))
    as [system [-> Hsystem]].
  rewrite bind_lift_inr.
  rewrite (solve_zero M system _ HM Hsystem)
    by (unfold Numpy.scale; now rewrite !length_map).
  rewrite bind_lift_inl. reflexivity.
Qed.

Lemma marq_zero_jacobian_raises_witness :
  marq [1; 2] [5] (fun _ => [0; 0]) (fun _ => [[0]; [0]]) lmstart_default
    lmstep_default maxsteps_default maxit_default tol_default None None None
  = ([Damping lmstart_default], inl LinAlgError).
Proof.
  apply (marq_zero_jacobian_raises [1; 2] [5] (fun _ => [0; 0])
           (fun _ => [[0]; [0]]) lmstart_default lmstep_default
           maxsteps_default maxit_default tol_default 2 1 [1 - 0; 2 - 0]).
  - lia.
  - lia.
  - reflexivity.
  - reflexivity.
  - reflexivity.
  - reflexivity.
  - split; [reflexivity | ]. repeat constructor; reflexivity.
Defined.

(** ** The one-shot solver on a model of one parameter *)

Lemma inner_self (col : vector) : Numpy.inner col col = Numpy.norm2 col.
Proof.
  unfold Numpy.inner, Numpy.norm2.
  induction col as [ | a col IH]; [reflexivity | ].
  cbn [combine map Numpy.total fold_right fst snd].
  unfold Numpy.total in IH. now rewrite IH.
Qed.

Lemma inner_single (a x : Q) : Numpy.inner [a] [x] == a * x.
Proof. unfold Numpy.inner. cbn [combine map Numpy.total fold_right fst snd]. ring. Qed.

Lemma transpose_column_matrix (a : Q) (col : vector) :
  Numpy.transpose (column_matrix (a :: col)) = [a :: col].
Proof.
  unfold Numpy.transpose, column_matrix. cbn [map Numpy.ncols length seq].
  unfold Numpy.column. cbn [map nth]. f_equal. f_equal.
  rewrite map_map. cbn [nth]. apply map_id.
Qed.

Lemma linear_model_column (col v : vector) :
  linear_model (column_matrix col) v = map (fun a => Numpy.inner [a] v) col.
Proof. unfold linear_model, column_matrix. now rewrite map_map. Qed.

Lemma inner_column_model (col : vector) (p : Q) :
  Numpy.inner col (map (fun a => Numpy.inner [a] [p]) col)
  == p * Numpy.inner col col.
Proof.
  unfold Numpy.inner at 1 3.
  induction col as [ | a col IH]; cbn [combine map Numpy.total fold_right fst snd].
  - ring.
  - unfold Numpy.total in IH. rewrite IH, inner_single. ring.
Qed.

Lemma solve_single (s t : Q) :
  ~ s == 0 ->
  exists x, Numpy.solve [[s]] [t] = inr [x] /\ x * s == t.
Proof.
  intros Hs. unfold Numpy.solve.
  cbn [Numpy.is_square forallb length Nat.eqb andb negb Numpy.det
       Numpy.expansion map seq Numpy.replace_column combine Numpy.replace_nth
       fst snd].
  destruct (Qeq_bool (s * 1 - 0) 0) eqn:E.
  - apply Qeq_bool_iff in E. exfalso. apply Hs. lra.
  - eexists. split; [reflexivity | ]. field. lra.
Qed.

Lemma residuals_vanish (col : vector) (p x : Q) :
  x == p ->
  Forall (fun z => z == 0)
    (map (fun q => fst q - snd q)
       (combine (map (fun a => Numpy.inner [a] [p]) col)
                (map (fun a => Numpy.inner [a] [x]) col))).
Proof.
  intros Hx. induction col as [ | a col IH]; cbn [map combine fst snd].
  - constructor.
  - constructor; [rewrite !inner_single, Hx; ring | exact IH].
Qed.

(** X12: the noiseless round trip of [linsolver] on a model of one
    parameter: for a Jacobian of one column [col] that is not zero, the
    forward function [func(p) = A.p] and [data = A.[p]], [linsolver]
    returns the estimate [[p]] and residuals that are all zero. *)
Theorem one_parameter_round_trip (col : vector) (p : Q) :
  ~ Numpy.norm2 col == 0 ->
  let A := column_matrix col in
  exists r,
    linsolver (linear_model A [p]) (linear_model A) A None None None
    = ([], inr r)
    /\ Forall2 Qeq (lin_estimate r) [p]
    /\ Forall (fun z => z == 0) (lin_residuals r).
Proof.
  intros Hcol A. subst A.
  destruct col as [ | a col]; [exfalso; apply Hcol; reflexivity | ].
  unfold linsolver. cbn [regularization].
  rewrite transpose_column_matrix, !linear_model_column.
  set (c := a :: col) in *.
  assert (Hmv : Numpy.dot_mv [c] (map (fun a0 => Numpy.inner [a0] [p]) c)
                = inr [Numpy.inner c (map (fun a0 => Numpy.inner [a0] [p]) c)]).
  { unfold Numpy.dot_mv. cbn [forallb map].
    rewrite length_map, Nat.eqb_refl. reflexivity. }
  rewrite Hmv, bind_lift_inr.
  assert (Hmm : Numpy.dot_mm [c] (column_matrix c) = [[Numpy.inner c c]]).
  { unfold Numpy.dot_mm, column_matrix, c.
    cbn [map Numpy.ncols length seq]. unfold Numpy.column.
    cbn [map nth]. rewrite map_map. cbn [nth]. now rewrite map_id. }
  rewrite Hmm.
  assert (Hs : ~ Numpy.inner c c == 0) by (rewrite inner_self; exact Hcol).
  destruct (solve_single (Numpy.inner c c)
              (Numpy.inner c (map (fun a0 => Numpy.inner [a0] [p]) c)) Hs)
    as [x [-> Hx]].
  rewrite bind_lift_inr.
  assert (Hxp : x == p).
  { rewrite inner_column_model in Hx.
    apply (Qmult_inj_r x p (Numpy.inner c c) Hs). exact Hx. }
  rewrite linear_model_column.
  unfold Numpy.sub, Numpy.broadcast. rewrite !length_map, Nat.eqb_refl.
  rewrite bind_lift_inr. eexists. split; [reflexivity | ].
  cbn [lin_estimate lin_residuals]. split.
  - constructor; [exact Hxp | constructor].
  - apply residuals_vanish. exact Hxp.
Qed.

Lemma one_parameter_round_trip_witness :
  exists r,
    linsolver (linear_model (column_matrix [1; 2]) [3])
      (linear_model (column_matrix [1; 2])) (column_matrix [1; 2])
      None None None
    = ([], inr r)
    /\ Forall2 Qeq (lin_estimate r) [3]
    /\ Forall (fun z => z == 0) (lin_residuals r).
Proof.
  apply (one_parameter_round_trip [1; 2] 3).
  vm_compute. discriminate.
Defined.

(** X13: when the Jacobian has a column and [data] has not as many
    entries as the Jacobian has rows, [linsolver] ends with the
    [ValueError] of [dot(jac.T, data)], whatever the regularization: no
    system is solved and no result is returned. *)
Theorem linsolver_data_mismatch (data : vector) (func : vector -> vector)
    (jac : matrix) reg_norm reg_grad reg_hess :
  (0 < Numpy.ncols jac)%nat -> length data <> length jac ->
  linsolver data func jac reg_norm reg_grad reg_hess = ([], inl ValueError).
Proof.
  intros Hcols Hlen. unfold linsolver.
  destruct (regularization reg_norm reg_grad reg_hess) as [[rn rg] rh].
  assert (E : Numpy.dot_mv (Numpy.transpose jac) data = inl ValueError).
  { unfold Numpy.dot_mv, Numpy.transpose.
    destruct (Numpy.ncols jac) as [ | k]; [lia | ].
    cbn [seq map forallb]. unfold Numpy.column at 1. rewrite length_map.
    rewrite (proj2 (Nat.eqb_neq _ _)) by congruence. reflexivity. }
  rewrite E. reflexivity.
Qed.

Lemma linsolver_data_mismatch_witness :
  linsolver [3; 6; 9] (linear_model A12) A12 None None None
  = ([], inl ValueError).
Proof.
  apply (linsolver_data_mismatch [3; 6; 9] (linear_model A12) A12
           None None None).
  - cbn. lia.
  - cbn. lia.
Defined.

(** ** The exceptions of a run *)

Lemma broadcast_error (f : Q -> Q -> Q) (a b : vector) (e : exn) :
  Numpy.broadcast f a b = inl e -> e = ValueError.
Proof.
  unfold Numpy.broadcast. destruct (length a =? length b)%nat; [discriminate | ].
  destruct a as [ | x [ | x' a]], b as [ | y [ | y' b]]; intros [=]; auto.
Qed.

Lemma add_rows_error (A : matrix) (v : vector) (e : exn) :
  Numpy.add_rows A v = inl e -> e = ValueError.
Proof.
  induction A as [ | row rest IH]; cbn [Numpy.add_rows]; [discriminate | ].
  destruct (Numpy.add row v) as [e' | row'] eqn:Hrow.
  - intros [= <-]. exact (broadcast_error _ _ _ _ Hrow).
  - destruct (Numpy.add_rows rest v) as [e' | rest']; [ | discriminate].
    intros [= <-]. now apply IH.
Qed.

Lemma dot_mv_error (A : matrix) (v : vector) (e : exn) :
  Numpy.dot_mv A v = inl e -> e = ValueError.
Proof.
  unfold Numpy.dot_mv. destruct (forallb _ A); [discriminate | ].
  now intros [= <-].
Qed.

Lemma solve_error (A : matrix) (b : vector) (e : exn) :
  Numpy.solve A b = inl e -> e <> ZeroDivisionError.
Proof.
  unfold Numpy.solve.
  destruct (negb (Numpy.is_square A)); [intros [= <-]; discriminate | ].
  destruct (negb (length b =? length A)%nat); [intros [= <-]; discriminate | ].
  destruct (Qeq_bool _ 0); [intros [= <-]; discriminate | discriminate].
Qed.

Lemma pydiv_error (a b : pynum) (e : exn) :
  pydiv a b = inl e -> toQ b == 0.
Proof.
  destruct a as [x | p], b as [y | q]; cbn [pydiv toQ];
    try (destruct (Qeq_bool _ 0) eqn:E; [ | discriminate];
         intros _; now apply Qeq_bool_iff in E).
  destruct (y =? 0)%Z eqn:E; [ | discriminate].
  intros _. apply Z.eqb_eq in E. subst y. reflexivity.
Qed.

Section Exceptions.

Variables (data : vector) (func : vector -> vector) (jac : vector -> matrix).
Variables (lmstep : pynum) (maxsteps : Z) (tol : Q).
Variables (reg_norm : norm_fn) (reg_grad : grad_fn) (reg_hess : hess_fn).

Lemma shrink_error (lm : pynum) (e : exn) :
  outcome (shrink lmstep lm) = inl e -> toQ lmstep == 0.
Proof.
  unfold shrink. destruct (Qlt_bool _ (toQ lm)); [ | discriminate].
  destruct (pydiv lm lmstep) as [e' | lm'] eqn:Hdiv.
  - intros _. exact (pydiv_error _ _ _ Hdiv).
  - rewrite bind_lift_inr, bind_tell. discriminate.
Qed.

Lemma grow_outcome (lm : pynum) :
  exists lm', outcome (grow lmstep lm) = inr lm'.
Proof.
  unfold grow. destruct (Qlt_bool (toQ lm) _); [ | now exists lm].
  rewrite bind_tell. now eexists.
Qed.

Lemma marquardt_loop_error (prev : vector) (hessian : matrix)
    (gradient : vector) (goals : list Q) (n : nat) :
  forall residuals lm,
  outcome (marquardt_loop data func lmstep reg_norm prev hessian gradient
             goals n residuals lm) = inl ZeroDivisionError ->
  toQ lmstep == 0.
Proof.
  induction n as [ | n' IH]; intros residuals lm; [discriminate | ].
  cbn [marquardt_loop].
  destruct (damped hessian lm) as [e | system] eqn:Hd.
  { rewrite bind_lift_inl. intros [= ->].
    apply add_rows_error in Hd. discriminate. }
  rewrite bind_lift_inr.
  destruct (Numpy.solve system gradient) as [e | delta] eqn:Hs.
  { rewrite bind_lift_inl. intros [= ->].
    now apply solve_error in Hs. }
  rewrite bind_lift_inr.
  destruct (Numpy.add prev delta) as [e | next'] eqn:Ha.
  { rewrite bind_lift_inl. intros [= ->].
    apply broadcast_error in Ha. discriminate. }
  rewrite bind_lift_inr.
  destruct (Numpy.sub data (func next')) as [e | residuals'] eqn:Hsub.
  { rewrite bind_lift_inl. intros [= ->].
    apply broadcast_error in Hsub. discriminate. }
  rewrite bind_lift_inr.
  destruct (Qlt_bool _ (last1 goals)); rewrite outcome_bind.
  - destruct (outcome (shrink lmstep lm)) as [e | lm'] eqn:Hsh;
      [ | discriminate].
    intros _. exact (shrink_error lm e Hsh).
  - destruct (grow_outcome lm) as [lm' ->]. apply IH.
Qed.

Lemma iteration_error (nxt res : vector) (goals : list Q) (lm : pynum) :
  outcome (iteration data func jac lmstep maxsteps tol reg_norm reg_grad
             reg_hess nxt res goals lm) = inl ZeroDivisionError ->
  toQ lmstep == 0.
Proof.
  unfold iteration.
  destruct (Numpy.dot_mv (Numpy.transpose (jac nxt)) res) as [e | jtr] eqn:Hmv.
  { rewrite bind_lift_inl. intros [= ->].
    apply dot_mv_error in Hmv. discriminate. }
  rewrite bind_lift_inr, outcome_bind.
  match goal with
  | |- context [outcome (marquardt_loop ?d ?f ?s ?rn ?pv ?h ?g ?gs ?n ?rs ?l)] =>
      pose proof (marquardt_loop_error pv h g gs n rs l) as Hloop;
      destruct (outcome (marquardt_loop d f s rn pv h g gs n rs l))
        as [e | [next' residuals' goal lm' | residuals' lm']]
  end.
  - intros [= ->]. now apply Hloop.
  - rewrite bind_tell. unfold converged.
    destruct (Qeq_bool _ 0); [cbn; discriminate | ].
    rewrite bind_ret. destruct (Qle_bool _ tol); cbn; discriminate.
  - cbn. discriminate.
Qed.

Lemma iterations_error (n : nat) :
  forall nxt res goals lm,
  outcome (iterations data func jac lmstep maxsteps tol reg_norm reg_grad
             reg_hess n nxt res goals lm) = inl ZeroDivisionError ->
  toQ lmstep == 0.
Proof.
  induction n as [ | n' IH]; intros nxt res goals lm; [discriminate | ].
  cbn [iterations]. rewrite outcome_bind.
  pose proof (iteration_error nxt res goals lm) as Hstep.
  destruct (outcome (iteration _ _ _ _ _ _ _ _ _ _ _ _ _))
    as [e | [r0 | next' residuals' goals' lm']].
  - intros [= ->]. now apply Hstep.
  - discriminate.
  - apply IH.
Qed.

End Exceptions.

(** X14: [marq] raises [ZeroDivisionError] only when [lmstep] is zero:
    the division of [lm_param] by [lmstep] is the only one that raises
    (the quotient of the convergence test is a float one). *)
Theorem zero_division_needs_zero_lmstep data init func jac lmstart lmstep
    maxsteps maxit tol reg_norm reg_grad reg_hess :
  outcome (marq data init func jac lmstart lmstep maxsteps maxit tol
             reg_norm reg_grad reg_hess) = inl ZeroDivisionError ->
  toQ lmstep == 0.
Proof.
  rewrite marq_unfold. cbv zeta.
  destruct (Numpy.sub data (func init)) as [e | res0] eqn:Hsub;
    rewrite outcome_pair.
  - intros [= ->]. apply broadcast_error in Hsub. discriminate.
  - apply iterations_error.
Qed.

Lemma zero_division_needs_zero_lmstep_witness :
  toQ (PyInt 0) == 0.
Proof.
  apply (zero_division_needs_zero_lmstep [1] [0] identity_model identity_jac
           lmstart_default (PyInt 0) maxsteps_default maxit_default
           tol_default None None None).
  vm_compute. reflexivity.
Defined.

(** ** The one-shot solver on a model of two parameters *)

Lemma solve_pair (a b c d e f : Q) (sol : vector) :
  Numpy.solve [[a; b]; [c; d]] [e; f] = inr sol ->
  exists x y, sol = [x; y] /\ a * x + b * y == e /\ c * x + d * y == f.
Proof.
  unfold Numpy.solve.
  cbn [Numpy.is_square forallb length Nat.eqb andb negb Numpy.det
       Numpy.expansion map seq Numpy.replace_column combine Numpy.replace_nth
       Numpy.remove_nth fst snd].
  destruct (Qeq_bool _ 0) eqn:E; [discriminate | ].
  apply Qeq_bool_neq in E. intros [= <-].
  eexists. eexists. split; [reflexivity | ].
  assert (E' : ~ a * d - b * c == 0).
  { intros Habs. apply E.
    setoid_replace (a * (d * 1 - 0) - (b * (c * 1 - 0) - 0))
      with (a * d - b * c) by ring.
    exact Habs. }
  split; field; exact E'.
Qed.

(** X15: for a model of two parameters, the estimate that [linsolver]
    returns solves the normal equations: with
    [H = reg_hess(None, dot(jac.T, jac)) = [[a,b],[c,d]]] and
    [dot(jac.T, data) = [e,f]], the estimate [[x,y]] has
    [a*x + b*y = e] and [c*x + d*y = f]. *)
Theorem two_parameter_normal_equations (data : vector)
    (func : vector -> vector) (jac : matrix) reg_norm reg_grad reg_hess
    (a b c d : Q) (r : linresult) :
  normal_matrix jac reg_norm reg_grad reg_hess = [[a; b]; [c; d]] ->
  outcome (linsolver data func jac reg_norm reg_grad reg_hess) = inr r ->
  exists x y e f,
    lin_estimate r = [x; y]
    /\ Numpy.dot_mv (Numpy.transpose jac) data = inr [e; f]
    /\ a * x + b * y == e /\ c * x + d * y == f.
Proof.
  unfold normal_matrix, linsolver.
  destruct (regularization reg_norm reg_grad reg_hess) as [[rn rg] rh].
  cbn [snd]. intros ->.
  destruct (Numpy.dot_mv (Numpy.transpose jac) data) as [e0 | rhs];
    [rewrite bind_lift_inl; discriminate | ].
  rewrite bind_lift_inr.
  destruct (Numpy.solve [[a; b]; [c; d]] rhs) as [e0 | sol] eqn:Hsolve;
    [rewrite bind_lift_inl; discriminate | ].
  rewrite bind_lift_inr.
  assert (Hrhs : exists e f, rhs = [e; f]).
  { unfold Numpy.solve in Hsolve.
    cbn [Numpy.is_square forallb length Nat.eqb andb negb] in Hsolve.
    destruct rhs as [ | e [ | f [ | g rhs]]]; try discriminate.
    now exists e, f. }
  destruct Hrhs as [e [f ->]].
  destruct (solve_pair a b c d e f sol Hsolve) as [x [y [-> [H1 H2]]]].
  destruct (Numpy.sub data (func [x; y])) as [e0 | res];
    [rewrite bind_lift_inl; discriminate | ].
  rewrite bind_lift_inr. intros [= <-].
  exists x, y, e, f. cbn [lin_estimate]. auto.
Qed.

Lemma two_parameter_normal_equations_witness :
  exists x y e f,
    lin_estimate (mkLin [9 # 3; 6 # 3] [2; 0; 2]) = [x; y]
    /\ Numpy.dot_mv (Numpy.transpose [[1; 0]; [0; 1]; [1; 1]]) [3; 2; 5]
       = inr [e; f]
    /\ 2 * x + 1 * y == e /\ 1 * x + 2 * y == f.
Proof.
  apply (two_parameter_normal_equations [3; 2; 5] (fun p => [1; 2; 3])
           [[1; 0]; [0; 1]; [1; 1]] None None None 2 1 1 2).
  - vm_compute. reflexivity.
  - vm_compute. reflexivity.
Defined.
